(** * NexentaEdge iSCSI volume driver: name map and LUN lifecycle

    A shallow embedding of
    [cinder/volume/drivers/nexenta/nexentaedge/iscsi_ne.py]
    (class [NexentaEdgeISCSIDriver]) and the properties of its LUN-number
    allocation, its name map and its create/delete/clone/snapshot
    sequences.

    The driver is a Python object whose methods read and assign attributes
    of [self] and call a REST client.  A method is embedded as a function
    from a world (the attributes of [self], the state of the backend behind
    the REST client, the requests sent so far, the lines logged so far) to
    the world it leaves behind and either the exception it raised or the
    value it returned.  A raised exception keeps every assignment made
    before it, as in Python. *)

From Stdlib Require Import Ascii.
From stdpp Require Import gmap strings list fin_maps pretty.

Set Warnings "-register-all".

Local Open Scope string_scope.
Local Open Scope Z_scope.

(** ** Python values the driver handles *)

(** Exceptions.  The driver raises and catches [nexenta.NexentaException];
    every other class (KeyError, IndexError, AttributeError, whatever the
    transport raises) is kept by its class name.  Both carry the message
    that [str(e)] shows. *)
Inductive exn :=
| NexentaException (msg : string)
| PyException (cls msg : string).

Definition exn_str (e : exn) : string :=
  match e with
  | NexentaException msg => msg
  | PyException _ msg => msg
  end.

(** [isinstance(e, nexenta.NexentaException)] *)
Definition is_nexenta (e : exn) : bool :=
  match e with
  | NexentaException _ => true
  | PyException _ _ => false
  end.

(** JSON values: request bodies and responses. *)
Inductive json :=
| JNull
| JInt (n : Z)
| JStr (s : string)
| JObj (fields : list (string * json)).

Fixpoint assoc_get (key : string) (fields : list (string * json)) : option json :=
  match fields with
  | [] => None
  | (k, v) :: rest => if String.eqb k key then Some v else assoc_get key rest
  end.

(** The item an object holds under [key]; [None] for an object without
    the key and for a value that is no object.  Used to state what a
    response looks like, not to run the driver. *)
Definition json_get (key : string) (j : json) : option json :=
  match j with
  | JObj fields => assoc_get key fields
  | _ => None
  end.

(** [type(j).__name__], as Python's error messages show it. *)
Definition type_name (j : json) : string :=
  match j with
  | JNull => "NoneType"
  | JInt _ => "int"
  | JStr _ => "unicode"
  | JObj _ => "dict"
  end.

(** [key in s] for a string [s]: is [key] a substring of [s]? *)
Fixpoint substring_of (key s : string) : bool :=
  String.prefix key s ||
  match s with
  | EmptyString => false
  | String _ s' => substring_of key s'
  end.

(** [key in j]: the key test on a dictionary, the substring test on a
    string, [TypeError] on [None] and on a number. *)
Definition json_contains (key : string) (j : json) : exn + bool :=
  match j with
  | JObj fields =>
      inr (match assoc_get key fields with Some _ => true | None => false end)
  | JStr s => inr (substring_of key s)
  | _ =>
      inl (PyException "TypeError"
             ("argument of type '" +:+ type_name j +:+ "' is not iterable"))
  end.

(** [j[key]]: the item of a dictionary or [KeyError]; [TypeError] on
    anything else. *)
Definition json_subscript (key : string) (j : json) : exn + json :=
  match j with
  | JObj fields =>
      match assoc_get key fields with
      | Some v => inr v
      | None => inl (PyException "KeyError" key)
      end
  | JStr _ => inl (PyException "TypeError" "string indices must be integers")
  | _ =>
      inl (PyException "TypeError"
             ("'" +:+ type_name j +:+
              "' object has no attribute '__getitem__'"))
  end.

(** [s.split(sep)] for a one-character separator. *)
Fixpoint split_on (sep : ascii) (s : string) : list string :=
  match s with
  | EmptyString => [EmptyString]
  | String c s' =>
      if Ascii.eqb c sep then EmptyString :: split_on sep s'
      else match split_on sep s' with
           | [] => [String c EmptyString]
           | h :: t => String c h :: t
           end
  end.

Definition newline : ascii := Ascii.ascii_of_nat 10.
Definition space : ascii := Ascii.ascii_of_nat 32.
Definition slash : ascii := Ascii.ascii_of_nat 47.

(** [sep.join(parts)] for a one-character separator. *)
Fixpoint join_on (sep : ascii) (parts : list string) : string :=
  match parts with
  | [] => EmptyString
  | p :: rest =>
      match rest with
      | [] => p
      | _ :: _ => p +:+ String sep (join_on sep rest)
      end
  end.

(** [s.count(c)] *)
Fixpoint count_char (c : ascii) (s : string) : nat :=
  match s with
  | EmptyString => 0
  | String c' s' => (if Ascii.eqb c' c then 1 else 0) + count_char c s'
  end.

(** ** The REST client *)

Inductive http_method := GET | PUT | POST | DELETE.

Record rest_call := RestCall {
  rc_method : http_method;
  rc_path : string;
  rc_body : option json
}.

Global Instance http_method_eq_dec : EqDecision http_method.
Proof. solve_decision. Defined.

(** What lies outside the repository: the backend reached through
    [jsonrpc.NexentaEdgeJSONProxy], which answers a request with a JSON
    response or raises, and Python's [json] module.  [B] is the state of
    the backend; nothing is assumed about how it answers. *)
Class External (B : Type) := {
  rest_request : B → rest_call → B * (exn + json);
  json_dumps : gmap string Z → string;
  json_loads : string → exn + gmap string Z
}.

(** ** The driver object *)

(** Attributes set by [__init__] from the configuration; never assigned
    again. *)
Record config := Config {
  restapi_protocol : string;
  restapi_host : string;
  restapi_port : Z;
  restapi_user : string;
  restapi_password : string;
  bucket_path : string;
  cluster : string;
  tenant : string;
  bucket : string;
  iscsi_target_portal_port : Z
}.

Definition bucket_url (cfg : config) : string :=
  "clusters/" +:+ cluster cfg +:+ "/tenants/" +:+ tenant cfg +:+
  "/buckets/" +:+ bucket cfg.

Definition LUN_BLOCKSIZE : Z := 512.
Definition LUN_CHUNKSIZE : Z := 131072.

(** The option values [__init__] reads from [self.configuration] once the
    three option groups have been appended to it. *)
Record configuration := Configuration {
  nexenta_rest_protocol : string;
  nexenta_host : string;
  nexenta_rest_port : Z;
  nexenta_user : string;
  nexenta_password : string;
  nexenta_volume : string;
  nexenta_iscsi_target_portal_port : Z
}.

(** What unpacking [n] values into three names raises. *)
Definition unpack_error (n : nat) : exn :=
  PyException "ValueError"
    (if decide (n < 3)%nat
     then "need more than " +:+ pretty n +:+
          (if decide (n = 1)%nat then " value to unpack"
           else " values to unpack")
     else "too many values to unpack").

(** [__init__]: the attributes of the new object, or the exception that
    ends the construction.  Without a configuration object the first
    attribute read fails. *)
Definition __init__ (conf : option configuration) : exn + config :=
  match conf with
  | None =>
      inl (PyException "AttributeError"
             "'NoneType' object has no attribute 'nexenta_rest_protocol'")
  | Some c =>
      match split_on slash (nexenta_volume c) with
      | [cluster; tenant; bucket] =>
          inr (Config (nexenta_rest_protocol c) (nexenta_host c)
                      (nexenta_rest_port c) (nexenta_user c)
                      (nexenta_password c) (nexenta_volume c)
                      cluster tenant bucket
                      (nexenta_iscsi_target_portal_port c))
      | parts => inl (unpack_error (length parts))
      end
  end.

(** The arguments [do_setup] builds the proxy from. *)
Record proxy := Proxy {
  px_protocol : string;
  px_host : string;
  px_port : Z;
  px_path : string;
  px_user : string;
  px_password : string;
  px_auto : bool
}.

(** Attributes assigned by [do_setup]; [None] while the attribute does not
    exist on the object. *)
Record driver := Driver {
  restapi : option proxy;
  target_name : option string;
  name_map : option (gmap string Z)
}.

Record world (B : Type) := World {
  self : driver;
  backend : B;
  requests : list rest_call;
  logged : list string
}.
Global Arguments World {B}.
Global Arguments self {B}.
Global Arguments backend {B}.
Global Arguments requests {B}.
Global Arguments logged {B}.

(** Records the orchestration framework passes in. *)
Record volume := Volume {
  vol_name : string;
  vol_size : Z;
  vol_id : string
}.

Record snapshot := Snapshot {
  snap_name : string;
  snap_volume_name : string;
  snap_volume_size : Z
}.

(** The dictionary [initialize_connection] returns, key by key. *)
Record connection_data := ConnectionData {
  conn_bucket_path : string;
  conn_target_discovered : bool;
  conn_target_lun : Z;
  conn_target_iqn : string;
  conn_target_portal : string;
  conn_volume_id : string;
  conn_access_mode : string
}.

Record connection := Connection {
  conn_driver_volume_type : string;
  conn_data : connection_data
}.

(** ** Methods as state-and-exception computations *)

Definition M (B A : Type) : Type := world B → world B * (exn + A).

Definition ret {B A} (a : A) : M B A := λ w, (w, inr a).

Definition raise {B A} (e : exn) : M B A := λ w, (w, inl e).

(** An expression that touches nothing: it gives its value or raises. *)
Definition of_result {B A} (r : exn + A) : M B A := λ w, (w, r).

Definition bind {B A C} (c : M B A) (k : A → M B C) : M B C :=
  λ w, match c w with
       | (w', inr a) => k a w'
       | (w', inl e) => (w', inl e)
       end.

Declare Scope py_scope.
Delimit Scope py_scope with py.
Notation "x <- c ;; k" := (bind c (λ x, k))
  (at level 100, c at next level, right associativity) : py_scope.
Notation "c ;;; k" := (bind c (λ _, k))
  (at level 100, right associativity) : py_scope.
Local Open Scope py_scope.

(** [try: body except Exception as exc:] with the handler as the
    continuation: the outcome of [body] is handed on as a value. *)
Definition attempt {B A} (body : M B A) : M B (exn + A) :=
  λ w, let '(w', r) := body w in (w', inr r).

(** [try: body except nexenta.NexentaException as e: handler]; any other
    exception passes through. *)
Definition try_nexenta {B A} (body : M B A) (handler : exn → M B A) : M B A :=
  λ w, match body w with
       | (w', inl e) => if is_nexenta e then handler e w' else (w', inl e)
       | (w', inr a) => (w', inr a)
       end.

(** [LOG.error(msg)] *)
Definition log_error {B} (msg : string) : M B unit :=
  λ w, (World (self w) (backend w) (requests w) (logged w ++ [msg]), inr tt).

Definition attribute_error {B A} (attr : string) : M B A :=
  raise (PyException "AttributeError" attr).

(** Reading [self.restapi], [self.target_name], [self.name_map]. *)
Definition get_restapi {B} : M B proxy :=
  λ w, match restapi (self w) with
       | Some p => (w, inr p)
       | None => attribute_error "restapi" w
       end.

Definition get_target_name {B} : M B string :=
  λ w, match target_name (self w) with
       | Some t => (w, inr t)
       | None => attribute_error "target_name" w
       end.

Definition get_name_map {B} : M B (gmap string Z) :=
  λ w, match name_map (self w) with
       | Some m => (w, inr m)
       | None => attribute_error "name_map" w
       end.

Definition set_self {B} (d : driver) : M B unit :=
  λ w, (World d (backend w) (requests w) (logged w), inr tt).

(** Assigning the attributes, and [self.name_map[...] = ...] and
    [self.name_map.pop(...)], which update the one dictionary the object
    holds. *)
Definition set_restapi {B} (p : proxy) : M B unit :=
  λ w, set_self (Driver (Some p) (target_name (self w)) (name_map (self w))) w.

Definition set_target_name {B} (t : string) : M B unit :=
  λ w, set_self (Driver (restapi (self w)) (Some t) (name_map (self w))) w.

Definition set_name_map {B} (m : gmap string Z) : M B unit :=
  λ w, set_self (Driver (restapi (self w)) (target_name (self w)) (Some m)) w.

Definition name_map_setitem {B} (name : string) (lun : Z) : M B unit :=
  m <- get_name_map;; set_name_map (<[name := lun]> m).

Definition name_map_pop {B} (name : string) : M B Z :=
  m <- get_name_map;;
  match m !! name with
  | Some lun => set_name_map (delete name m);;; ret lun
  | None => raise (PyException "KeyError" name)
  end.

Section Driver.
Context {B : Type} `{!External B}.
Variable cfg : config.

(** [self.restapi.<method>(path, body)]: the request goes out, the
    backend moves on, and the answer is a response or an exception. *)
Definition send (c : rest_call) : M B json :=
  get_restapi;;;
  λ w, let '(b', r) := rest_request (backend w) c in
       (World (self w) b' (requests w ++ [c]) (logged w), r).

Definition restapi_get (path : string) : M B json :=
  send (RestCall GET path None).
Definition restapi_put (path : string) (body : json) : M B json :=
  send (RestCall PUT path (Some body)).
Definition restapi_post (path : string) (body : json) : M B json :=
  send (RestCall POST path (Some body)).
Definition restapi_delete (path : string) (body : option json) : M B json :=
  send (RestCall DELETE path body).

(** [json.loads(rsp['bucketMetadata']['X-Name-Map'])] *)
Definition loads_name_map (rsp : json) : M B (gmap string Z) :=
  metadata <- of_result (json_subscript "bucketMetadata" rsp);;
  stored <- of_result (json_subscript "X-Name-Map" metadata);;
  match stored with
  | JStr s => of_result (json_loads s)
  | _ => raise (PyException "TypeError" "expected string or buffer")
  end.

(** The condition is [not (a and b)] with [a] the test
    ['bucketMetadata' in rsp] and [b] the test
    ['X-Name-Map' in rsp['bucketMetadata']]; [b] is evaluated only when
    [a] holds, and either test raises on a value that cannot be
    searched. *)
Definition _get_bucket_name_map : M B (gmap string Z) :=
  rsp <- restapi_get (bucket_url cfg);;
  has_metadata <- of_result (json_contains "bucketMetadata" rsp);;
  has_name_map <-
    (if has_metadata then
       metadata <- of_result (json_subscript "bucketMetadata" rsp);;
       of_result (json_contains "X-Name-Map" metadata)
     else ret false);;
  if negb (has_metadata && has_name_map) then ret ∅
  else loads_name_map rsp.

Definition name_map_body (m : gmap string Z) : json :=
  JObj [("optionsObject", JObj [("X-Name-Map", JStr (json_dumps m))])].

Definition _set_bucket_name_map : M B unit :=
  get_restapi;;;
  m <- get_name_map;;
  restapi_put (bucket_url cfg) (name_map_body m);;;
  ret tt.

Definition _verify_name_in_map (name : string) : M B unit :=
  m <- get_name_map;;
  if negb (bool_decide (is_Some (m !! name))) then
    log_error ("Bucket metadata map missing volume: " +:+ name);;;
    raise (NexentaException ("Bucket metadata map missing volume: " +:+ name))
  else ret tt.

Definition _get_lun_from_name (name : string) : M B Z :=
  _verify_name_in_map name;;;
  m <- get_name_map;;
  match m !! name with
  | Some lun => ret lun
  | None => raise (PyException "KeyError" name)
  end.

(** The inner loop of [_allocate_lun_number]: is [i] a value of the
    map? *)
Definition lun_exists (m : gmap string Z) (i : Z) : bool :=
  existsb (λ kv, Z.eqb i kv.2) (map_to_list m).

(** The outer loop: the first [i] of [range(1, 256)] that is not. *)
Definition scan_lun_numbers (m : gmap string Z) : option Z :=
  find (λ i, negb (lun_exists m i)) (seqZ 1 255).

Definition _allocate_lun_number : M B Z :=
  m <- get_name_map;;
  match scan_lun_numbers m with
  | Some lunNumber => ret lunNumber
  | None =>
      log_error "Failed to allocate LUN number: All 255 lun numbers used, WOW!";;;
      raise (NexentaException "All 255 lun numbers used")
  end.

(** [str(lunNumber)] *)
Definition str (n : Z) : string := pretty n.

Definition _get_provider_location (volume : volume) : M B string :=
  name <- get_target_name;;
  number <- _get_lun_from_name (vol_name volume);;
  ret (restapi_host cfg +:+ ":" +:+ str (iscsi_target_portal_port cfg) +:+
       ",1 " +:+ name +:+ " " +:+ str number).

(** Body of the [POST iscsi] request that creates a LUN. *)
Definition create_lun_body (lunNumber sizeGB : Z) : json :=
  JObj [("objectPath", JStr (bucket_path cfg +:+ "/" +:+ str lunNumber));
        ("volSizeMB", JInt (sizeGB * 1024));
        ("blockSize", JInt LUN_BLOCKSIZE);
        ("chunkSize", JInt LUN_CHUNKSIZE);
        ("number", JInt lunNumber)].

Definition create_volume (volume : volume) : M B json :=
  lunNumber <- _allocate_lun_number;;
  try_nexenta
    (restapi_post "iscsi" (create_lun_body lunNumber (vol_size volume));;;
     name_map_setitem (vol_name volume) lunNumber;;;
     _set_bucket_name_map)
    (λ e, log_error ("Error while creating volume: " +:+ exn_str e);;;
          raise e);;;
  location <- _get_provider_location volume;;
  ret (JObj [("provider_location", JStr location)]).

Definition delete_lun_body (lunNumber : Z) : json :=
  JObj [("objectPath", JStr (bucket_path cfg +:+ "/" +:+ str lunNumber))].

Definition delete_volume (volume : volume) : M B unit :=
  lunNumber <- _get_lun_from_name (vol_name volume);;
  try_nexenta
    (restapi_delete ("iscsi/" +:+ str lunNumber)
                    (Some (delete_lun_body lunNumber));;;
     name_map_pop (vol_name volume);;;
     _set_bucket_name_map)
    (λ e, log_error ("Error while deleting: " +:+ exn_str e);;;
          raise e).

Definition extend_volume (volume : volume) (new_size : Z) : M B unit :=
  lunNumber <- _get_lun_from_name (vol_name volume);;
  restapi_post
    ("iscsi/" +:+ str lunNumber +:+ "/resize")
    (JObj [("objectPath", JStr (bucket_path cfg +:+ "/" +:+ str lunNumber));
           ("newSizeMB", JInt (new_size * 1024))]);;;
  ret tt.

Definition create_volume_from_snapshot (volume : volume) (snapshot : snapshot)
  : M B unit :=
  lunNumber <- _get_lun_from_name (snap_volume_name snapshot);;
  newLun <- _allocate_lun_number;;
  try_nexenta
    (let snap_url := bucket_url cfg +:+ "/snapviews/" +:+ str lunNumber +:+
                     ".snapview/snapshots/" +:+ snap_name snapshot in
     let snap_body := JObj [("ss_tenant", JStr (tenant cfg));
                            ("ss_bucket", JStr (bucket cfg));
                            ("ss_object", JStr (str newLun))] in
     restapi_post snap_url snap_body;;;
     restapi_post "iscsi" (create_lun_body newLun (snap_volume_size snapshot));;;
     name_map_setitem (vol_name volume) newLun;;;
     _set_bucket_name_map)
    (λ e, log_error ("Error while creating volume: " +:+ exn_str e);;;
          raise e).

Definition create_snapshot (snapshot : snapshot) : M B unit :=
  lunNumber <- _get_lun_from_name (snap_volume_name snapshot);;
  let snap_url := bucket_url cfg +:+ "/snapviews/" +:+ str lunNumber +:+
                  ".snapview" in
  let snap_body := JObj [("ss_bucket", JStr (bucket cfg));
                         ("ss_object", JStr (str lunNumber));
                         ("ss_name", JStr (snap_name snapshot))] in
  restapi_post snap_url snap_body;;;
  ret tt.

Definition delete_snapshot (snapshot : snapshot) : M B unit :=
  lunNumber <- _get_lun_from_name (snap_volume_name snapshot);;
  restapi_delete
    (bucket_url cfg +:+ "/snapviews/" +:+ str lunNumber +:+
     ".snapview/snapshots/" +:+ snap_name snapshot)
    None;;;
  ret tt.

Definition clone_url (srcLun : Z) : string :=
  bucket_url cfg +:+ "/objects/" +:+ str srcLun +:+ "/clone".

Definition clone_body (newLun : Z) : json :=
  JObj [("tenant_name", JStr (tenant cfg));
        ("bucket_name", JStr (bucket cfg));
        ("object_name", JStr (str newLun))].

Definition create_cloned_volume (volume src_vref : volume) : M B unit :=
  srcLun <- _get_lun_from_name (vol_name src_vref);;
  let vol_url := clone_url srcLun in
  newLun <- _allocate_lun_number;;
  try_nexenta
    (restapi_post vol_url (clone_body newLun);;;
     restapi_post "iscsi" (create_lun_body newLun (vol_size src_vref));;;
     name_map_setitem (vol_name volume) newLun;;;
     _set_bucket_name_map)
    (λ e, log_error ("Error creating cloned volume: " +:+ exn_str e);;;
          raise e).

Definition ensure_export (volume : volume) : M B unit := ret tt.
Definition remove_export (volume : volume) : M B unit := ret tt.
Definition terminate_connection (volume : volume) : M B unit := ret tt.

(** [do_setup] returns [None], or, from its handler, the exception
    object it caught: the value is [Some exc] then. *)
Definition do_setup : M B (option exn) :=
  let '(protocol, auto) :=
    if String.eqb (restapi_protocol cfg) "auto" then ("http", true)
    else (restapi_protocol cfg, false) in
  set_restapi (Proxy protocol (restapi_host cfg) (restapi_port cfg) "/"
                     (restapi_user cfg) (restapi_password cfg) auto);;;
  r <- attempt (restapi_get "sysconfig/iscsi/status");;
  match r with
  | inl exc =>
      log_error ("Error reaching NexentaEdge host: " +:+ restapi_host cfg);;;
      log_error (exn_str exc);;;
      ret (Some exc)
  | inr rsp =>
      status <- of_result (json_subscript "value" rsp);;
      match status with
      | JStr value =>
          match split_on space (hd "" (split_on newline value)) !! 2%nat with
          | Some name =>
              set_target_name name;;;
              namemap <- _get_bucket_name_map;;
              set_name_map namemap;;;
              ret None
          | None => raise (PyException "IndexError" "list index out of range")
          end
      | _ =>
          raise (PyException "AttributeError"
                   ("'" +:+ type_name status +:+
                    "' object has no attribute 'split'"))
      end
  end.

Definition check_for_setup_error : M B unit :=
  restapi_get (bucket_url cfg);;; ret tt.

Definition create_export (volume : volume) : M B json :=
  location <- _get_provider_location volume;;
  ret (JObj [("provider_location", JStr location)]).

Definition initialize_connection (volume : volume) : M B connection :=
  lunNumber <- _get_lun_from_name (vol_name volume);;
  let target_portal :=
    restapi_host cfg +:+ ":" +:+ str (iscsi_target_portal_port cfg) in
  target_iqn <- get_target_name;;
  ret (Connection "iscsi"
         (ConnectionData (bucket_path cfg) true lunNumber target_iqn
                         target_portal (vol_id volume) "rw")).

Definition local_path (volume : volume) : M B string :=
  lunNumber <- _get_lun_from_name (vol_name volume);;
  ret (bucket_path cfg +:+ "/" +:+ str lunNumber).

End Driver.

(** ** A scripted backend

    A stand-in for the cluster, as a unit test of the driver would use: it
    answers the requests it receives with the outcomes of a script, in
    order, and with an empty success once the script has run out. *)
Module Mock.

Definition script := list (exn + json).

Definition quote : string := String (Ascii.ascii_of_nat 34) EmptyString.

Definition dumps (m : gmap string Z) : string :=
  "{" +:+
  String.concat ", "
    ((λ kv : string * Z, quote +:+ kv.1 +:+ quote +:+ ": " +:+ pretty kv.2)
       <$> map_to_list m)
  +:+ "}".

Global Instance external : External script := {
  rest_request b _ :=
    match b with
    | [] => ([], inr JNull)
    | r :: b' => (b', r)
    end;
  json_dumps := dumps;
  json_loads _ := inr ∅
}.

Definition cfg : config :=
  Config "auto" "10.0.0.1" 8080 "admin" "nexenta" "clu/ten/bk"
         "clu" "ten" "bk" 3260.

Definition the_proxy : proxy :=
  Proxy "http" "10.0.0.1" 8080 "/" "admin" "nexenta" true.

(** The driver after a successful [do_setup] that found target
    [iqn.test] and name map [m], facing a backend that will follow
    [b]. *)
Definition ready (m : gmap string Z) (b : script) : world script :=
  World (Driver (Some the_proxy) (Some "iqn.test") (Some m)) b [] [].

(** The driver as [__init__] leaves it. *)
Definition fresh (b : script) : world script :=
  World (Driver None None None) b [] [].

Definition ok : exn + json := inr JNull.
Definition down : exn + json :=
  inl (NexentaException "connection refused").

(** A name map that holds every number of 1..255: [v1 -> 1], ...,
    [v255 -> 255]. *)
Definition full_map : gmap string Z :=
  list_to_map ((λ i : Z, ("v" +:+ pretty i, i)) <$> seqZ 1 255).

Definition vol1 : volume := Volume "vol1" 10 "id-1".
Definition v1 : volume := Volume "v1" 1 "id-v1".
Definition copy : volume := Volume "copy" 1 "id-copy".
Definition snap1 : snapshot := Snapshot "snap1" "vol1" 10.
Definition vol2 : volume := Volume "vol2" 5 "id-2".

(** A status whose first line names the target, and one that is too
    short. *)
Definition status : json :=
  JObj [("value", JStr ("Target 1: iqn.test" +:+ String newline "LUN: 0"))].
Definition short_status : json := JObj [("value", JStr "Target")].

(** The answer for a bucket whose metadata holds no name map yet. *)
Definition new_bucket : json := JObj [("bucketMetadata", JObj [])].

Definition conf : configuration :=
  Configuration "auto" "10.0.0.1" 8080 "admin" "nexenta" "clu/ten/bk" 3260.

(** The script that has run out: it accepts whatever comes. *)
Definition exhausted (b : script) : Prop := b = [].

End Mock.

(** ** Vocabulary of the statements *)

(** The names the specification gives to the two errors the driver raises
    itself. *)
Definition UnknownVolume (name : string) : exn :=
  NexentaException ("Bucket metadata map missing volume: " +:+ name).

Definition LunSpaceExhausted : exn :=
  NexentaException "All 255 lun numbers used".

(** [n] is the number of some entry of [m]. *)
Definition lun_in_use (m : gmap string Z) (n : Z) : Prop :=
  ∃ name, m !! name = Some n.

(** No number is held by two entries. *)
Definition lun_unique (m : gmap string Z) : Prop :=
  ∀ name1 name2 n, m !! name1 = Some n → m !! name2 = Some n → name1 = name2.

(** The invariant of the name map: no number twice, every number in
    1..255. *)
Definition lun_invariant (m : gmap string Z) : Prop :=
  lun_unique m ∧ ∀ name n, m !! name = Some n → 1 ≤ n ≤ 255.

(** How a method may have changed the name map: not at all, by one
    assignment of a number the scan returns, or by one removal. *)
Inductive name_map_step :
  option (gmap string Z) → option (gmap string Z) → Prop :=
| step_same o : name_map_step o o
| step_setitem m name n :
    scan_lun_numbers m = Some n →
    name_map_step (Some m) (Some (<[name := n]> m))
| step_pop m name :
    name_map_step (Some m) (Some (delete name m)).

(** The methods that assign to the name map. *)
Inductive mutating_op :=
| CreateVolume (volume : volume)
| DeleteVolume (volume : volume)
| CreateVolumeFromSnapshot (volume : volume) (snapshot : snapshot)
| CreateClonedVolume (volume src_vref : volume).

Section Vocabulary.
Context {B : Type} `{!External B}.
Variable cfg : config.
Implicit Types (w : world B) (m : gmap string Z).

(** The world after [LOG.error(msg)]. *)
Definition with_log w (msg : string) : world B :=
  World (self w) (backend w) (requests w) (logged w ++ [msg]).

(** The world after the name map has become [m]. *)
Definition with_name_map w m : world B :=
  World (Driver (restapi (self w)) (target_name (self w)) (Some m))
        (backend w) (requests w) (logged w).

(** The world after request [c] went out and left the backend in [b']. *)
Definition sent w (c : rest_call) (b' : B) : world B :=
  World (self w) b' (requests w ++ [c]) (logged w).

(** The world after an [except nexenta.NexentaException] handler that
    logs and raises again has seen [e]. *)
Definition handled w (prefix : string) (e : exn) : world B :=
  if is_nexenta e then with_log w (prefix +:+ exn_str e) else w.

(** The requests of the lifecycle methods. *)
Definition status_call : rest_call :=
  RestCall GET "sysconfig/iscsi/status" None.

Definition create_lun_call (n sizeGB : Z) : rest_call :=
  RestCall POST "iscsi" (Some (create_lun_body cfg n sizeGB)).

Definition delete_lun_call (n : Z) : rest_call :=
  RestCall DELETE ("iscsi/" +:+ str n) (Some (delete_lun_body cfg n)).

Definition clone_call (srcLun newLun : Z) : rest_call :=
  RestCall POST (clone_url cfg srcLun) (Some (clone_body cfg newLun)).

Definition persist_call m : rest_call :=
  RestCall PUT (bucket_url cfg) (Some (name_map_body m)).

(** What [create_volume] returns for target [t] and number [n]. *)
Definition provider_location (t : string) (n : Z) : json :=
  JObj [("provider_location",
         JStr (restapi_host cfg +:+ ":" +:+
               str (iscsi_target_portal_port cfg) +:+
               ",1 " +:+ t +:+ " " +:+ str n))].

(** What [create_volume] ends with once the name map is persisted: the
    location, which needs [self.target_name]. *)
Definition location_result w (n : Z) : exn + json :=
  match target_name (self w) with
  | Some t => inr (provider_location t n)
  | None => inl (PyException "AttributeError" "target_name")
  end.

(** The world a mutating method leaves behind. *)
Definition after_op (op : mutating_op) w : world B :=
  match op with
  | CreateVolume volume => (create_volume cfg volume w).1
  | DeleteVolume volume => (delete_volume cfg volume w).1
  | CreateVolumeFromSnapshot volume snapshot =>
      (create_volume_from_snapshot cfg volume snapshot w).1
  | CreateClonedVolume volume src_vref =>
      (create_cloned_volume cfg volume src_vref w).1
  end.

(** [w'] has the name map of [w], and the requests sent between the two
    include no [PUT]: nothing was persisted. *)
Definition name_map_untouched w w' : Prop :=
  name_map (self w') = name_map (self w) ∧
  ∃ new : list rest_call,
    requests w' = (requests w ++ new)%list ∧
    Forall (λ c, rc_method c ≠ PUT) new.

(** The requests of the snapshot methods and of the bucket fetch. *)
Definition restore_call (srcLun : Z) (snapshot_name : string) (newLun : Z)
  : rest_call :=
  RestCall POST
    (bucket_url cfg +:+ "/snapviews/" +:+ str srcLun +:+
     ".snapview/snapshots/" +:+ snapshot_name)
    (Some (JObj [("ss_tenant", JStr (tenant cfg));
                 ("ss_bucket", JStr (bucket cfg));
                 ("ss_object", JStr (str newLun))])).

Definition bucket_call : rest_call := RestCall GET (bucket_url cfg) None.

(** The first line of the iSCSI status, as [do_setup] takes it. *)
Definition first_line (value : string) : string :=
  hd "" (split_on newline value).

(** A caller that creates the volumes of a list one after the other. *)
Fixpoint create_all (volumes : list volume) w : world B :=
  match volumes with
  | [] => w
  | volume :: rest => create_all rest (create_volume cfg volume w).1
  end.

(** [good] holds of backend states that accept every request and stay
    [good]. *)
Definition accepting (good : B → Prop) : Prop :=
  ∀ b c, good b → ∃ b' j, rest_request b c = (b', inr j) ∧ good b'.

(** [w'] has the name map of [w], or the last request sent was the one
    that persists the name map [w'] has. *)
Definition persisted_or_same w w' : Prop :=
  name_map (self w') = name_map (self w) ∨
  ∃ m' before, name_map (self w') = Some m' ∧
               requests w' = (before ++ [persist_call m'])%list.

(** The outcome of a method that was asked about a name the map does not
    hold: [UnknownVolume], one line logged, nothing else. *)
Definition rejected_unknown {A} w (name : string) (out : world B * (exn + A))
  : Prop :=
  out.2 = inl (UnknownVolume name) ∧
  out.1 = with_log w ("Bucket metadata map missing volume: " +:+ name).

End Vocabulary.

(** A word of the status: no space and no newline in it. *)
Definition status_word (s : string) : Prop :=
  count_char space s = 0%nat ∧ count_char newline s = 0%nat.

(** The shape of a status from which [do_setup] reads target [t]: two
    words, the name, and then the end of the string, a space or a
    newline. *)
Definition status_names (value t : string) : Prop :=
  ∃ w0 w1 rest,
    value = w0 +:+ " " +:+ w1 +:+ " " +:+ t +:+ rest ∧
    status_word w0 ∧ status_word w1 ∧ status_word t ∧
    (rest = "" ∨ ∃ x, rest = String space x ∨ rest = String newline x).

(** ** The allocation scan *)

Section Scan.
Implicit Types (m : gmap string Z).

Lemma lun_exists_true m i : lun_exists m i = true ↔ lun_in_use m i.
Proof.
  unfold lun_exists, lun_in_use. rewrite existsb_exists. split.
  - intros [[k v] [Hin Heq]]. simpl in Heq.
    apply Z.eqb_eq in Heq. subst v.
    exists k. apply elem_of_map_to_list. by apply list_elem_of_In.
  - intros [k Hk]. exists (k, i). split.
    + apply list_elem_of_In. by apply elem_of_map_to_list.
    + simpl. apply Z.eqb_refl.
Qed.

Lemma lun_exists_false m i : lun_exists m i = false ↔ ¬ lun_in_use m i.
Proof. rewrite <- lun_exists_true. by destruct (lun_exists m i). Qed.

(** [find] stops at the first position whose element passes the test. *)
Lemma find_first {A} (P : A → bool) (l : list A) x :
  find P l = Some x →
  ∃ i : nat, l !! i = Some x ∧ P x = true ∧
             ∀ (j : nat) y, (j < i)%nat → l !! j = Some y → P y = false.
Proof.
  induction l as [|a l IH]; simpl; [done|].
  destruct (P a) eqn:Ha.
  - intros [= <-]. exists 0%nat. repeat split; [done|]. intros j y Hj. lia.
  - intros Hf. destruct (IH Hf) as (i & Hi & Hx & Hlt).
    exists (S i). repeat split; [done..|].
    intros [|j] y Hj; simpl.
    + by intros [= <-].
    + apply Hlt. lia.
Qed.

Lemma find_nothing {A} (P : A → bool) (l : list A) :
  find P l = None ↔ ∀ x, x ∈ l → P x = false.
Proof.
  induction l as [|a l IH]; simpl.
  - split; [|done]. intros _ x Hx. by apply elem_of_nil in Hx.
  - destruct (P a) eqn:Ha.
    + split; [done|]. intros H. specialize (H a (list_elem_of_here _ _)).
      congruence.
    + rewrite IH. split.
      * intros H x Hx. apply elem_of_cons in Hx as [->|Hx]; auto.
      * intros H x Hx. apply H. by apply list_elem_of_further.
Qed.

(** The scan returns the lowest number of 1..255 that no entry holds. *)
Lemma scan_lun_numbers_Some m n :
  scan_lun_numbers m = Some n →
  1 ≤ n ≤ 255 ∧ ¬ lun_in_use m n ∧ ∀ j, 1 ≤ j < n → lun_in_use m j.
Proof.
  unfold scan_lun_numbers. intros Hf.
  apply find_first in Hf as (i & Hi & Hn & Hlt).
  apply lookup_seqZ in Hi as [-> Hi].
  split; [lia|]. split.
  - apply lun_exists_false. by apply negb_true_iff.
  - intros j Hj. apply lun_exists_true.
    specialize (Hlt (Z.to_nat (j - 1)) j).
    apply negb_false_iff, Hlt; [lia|].
    apply lookup_seqZ. lia.
Qed.

Lemma scan_lun_numbers_None m :
  scan_lun_numbers m = None ↔ ∀ i, 1 ≤ i ≤ 255 → lun_in_use m i.
Proof.
  unfold scan_lun_numbers. rewrite find_nothing. split.
  - intros H i Hi. apply lun_exists_true, negb_false_iff, H.
    apply elem_of_seqZ. lia.
  - intros H i Hi. apply elem_of_seqZ in Hi.
    apply negb_false_iff, lun_exists_true, H. lia.
Qed.

(** Fewer than 255 entries cannot hold all of 1..255. *)
Lemma scan_lun_numbers_room m :
  (size m < 255)%nat → is_Some (scan_lun_numbers m).
Proof.
  intros Hsize. destruct (scan_lun_numbers m) eqn:Hscan; [by eexists|].
  exfalso. rewrite scan_lun_numbers_None in Hscan.
  assert (Hincl : incl (seqZ 1 255) ((map_to_list m).*2)).
  { intros i Hi. apply list_elem_of_In in Hi. apply elem_of_seqZ in Hi.
    destruct (Hscan i) as [k Hk]; [lia|].
    apply list_elem_of_In, list_elem_of_fmap. exists (k, i). split; [done|].
    by apply elem_of_map_to_list. }
  apply NoDup_incl_length in Hincl.
  - rewrite length_seqZ, length_fmap, length_map_to_list in Hincl. lia.
  - apply NoDup_ListNoDup, NoDup_seqZ.
Qed.

(** A free number at most 255 bounds what the scan returns. *)
Lemma scan_lun_numbers_le m k :
  1 ≤ k ≤ 255 → ¬ lun_in_use m k →
  ∃ n, scan_lun_numbers m = Some n ∧ n ≤ k.
Proof.
  intros Hk Hfree. destruct (scan_lun_numbers m) as [n|] eqn:Hscan.
  - exists n. split; [done|].
    destruct (scan_lun_numbers_Some m n Hscan) as (_ & _ & Hbelow).
    destruct (decide (n ≤ k)) as [|Hgt]; [done|].
    destruct Hfree. apply Hbelow. lia.
  - destruct Hfree. by apply scan_lun_numbers_None.
Qed.

(** ** The invariant under assignment and removal *)

Lemma lun_unique_insert m name n :
  lun_unique m → ¬ lun_in_use m n → lun_unique (<[name := n]> m).
Proof.
  intros Hu Hfree k1 k2 v H1 H2.
  apply lookup_insert_Some in H1 as [[<- <-]|[Hne1 H1]];
    apply lookup_insert_Some in H2 as [[<- Hv]|[Hne2 H2]]; try done.
  - destruct Hfree. by exists k2.
  - subst v. destruct Hfree. by exists k1.
  - by apply (Hu k1 k2 v).
Qed.

Lemma lun_invariant_insert m name n :
  lun_invariant m → scan_lun_numbers m = Some n →
  lun_invariant (<[name := n]> m).
Proof.
  intros [Hu Hr] Hscan.
  destruct (scan_lun_numbers_Some m n Hscan) as (Hn & Hfree & _).
  split; [by apply lun_unique_insert|].
  intros k v Hk. apply lookup_insert_Some in Hk as [[_ <-]|[_ Hk]]; [done|].
  by apply (Hr k).
Qed.

Lemma lun_invariant_delete m name :
  lun_invariant m → lun_invariant (delete name m).
Proof.
  intros [Hu Hr]. split.
  - intros k1 k2 v H1 H2.
    apply lookup_delete_Some in H1 as [_ H1].
    apply lookup_delete_Some in H2 as [_ H2]. by apply (Hu k1 k2 v).
  - intros k v Hk. apply lookup_delete_Some in Hk as [_ Hk]. by apply (Hr k).
Qed.


End Scan.

(** ** Step equations for the helper methods *)

Section Helpers.
Context {B : Type}.
Implicit Types (w : world B) (m : gmap string Z).

Lemma get_name_map_eq w m :
  name_map (self w) = Some m → get_name_map w = (w, inr m).
Proof. unfold get_name_map. by intros ->. Qed.

Lemma get_lun_from_name_found w m name lun :
  name_map (self w) = Some m → m !! name = Some lun →
  _get_lun_from_name name w = (w, inr lun).
Proof.
  intros Hm Hl. unfold _get_lun_from_name, _verify_name_in_map, bind.
  rewrite (get_name_map_eq w m Hm), Hl.
  rewrite bool_decide_eq_true_2 by (by eexists). simpl.
  by rewrite (get_name_map_eq w m Hm), Hl.
Qed.

Lemma get_lun_from_name_missing w m name :
  name_map (self w) = Some m → m !! name = None →
  _get_lun_from_name name w =
    (with_log w ("Bucket metadata map missing volume: " +:+ name),
     inl (UnknownVolume name)).
Proof.
  intros Hm Hl. unfold _get_lun_from_name, _verify_name_in_map, bind.
  rewrite (get_name_map_eq w m Hm), Hl.
  rewrite bool_decide_eq_false_2 by (by intros [? ?]). done.
Qed.

Lemma allocate_lun_number_found w m n :
  name_map (self w) = Some m → scan_lun_numbers m = Some n →
  _allocate_lun_number w = (w, inr n).
Proof.
  intros Hm Hs. unfold _allocate_lun_number, bind.
  by rewrite (get_name_map_eq w m Hm), Hs.
Qed.

Lemma allocate_lun_number_full w m :
  name_map (self w) = Some m → scan_lun_numbers m = None →
  _allocate_lun_number w =
    (with_log w "Failed to allocate LUN number: All 255 lun numbers used, WOW!",
     inl LunSpaceExhausted).
Proof.
  intros Hm Hs. unfold _allocate_lun_number, bind.
  by rewrite (get_name_map_eq w m Hm), Hs.
Qed.

End Helpers.

(** ** The lifecycle methods, outcome by outcome

    For a driver whose [restapi] and [name_map] exist, each lemma follows
    the method through the answers of the backend and gives the world and
    the result at every way out. *)

Section Cases.
Context {B : Type} `{!External B}.
Variable cfg : config.
Implicit Types (w : world B) (m : gmap string Z).

Ltac world_cases w :=
  destruct w as [[ra tn nm] b rq lg]; simpl in *; subst.

Ltac handler_done e := unfold handled; by destruct (is_nexenta e).

Lemma create_volume_cases w p m vol :
  restapi (self w) = Some p → name_map (self w) = Some m →
  match scan_lun_numbers m with
  | None =>
      create_volume cfg vol w =
        (with_log w "Failed to allocate LUN number: All 255 lun numbers used, WOW!",
         inl LunSpaceExhausted)
  | Some n =>
      let post := create_lun_call cfg n (vol_size vol) in
      let m' := <[vol_name vol := n]> m in
      match rest_request (backend w) post with
      | (b1, inl e) =>
          create_volume cfg vol w =
            (handled (sent w post b1) "Error while creating volume: " e, inl e)
      | (b1, inr _) =>
          let w1 := with_name_map (sent w post b1) m' in
          match rest_request b1 (persist_call cfg m') with
          | (b2, inl e) =>
              create_volume cfg vol w =
                (handled (sent w1 (persist_call cfg m') b2)
                         "Error while creating volume: " e, inl e)
          | (b2, inr _) =>
              create_volume cfg vol w =
                (sent w1 (persist_call cfg m') b2, location_result cfg w n)
          end
      end
  end.
Proof.
  intros Hp Hm. world_cases w.
  unfold create_volume, _allocate_lun_number, bind, get_name_map. simpl.
  destruct (scan_lun_numbers m) as [n|] eqn:Hscan; [|done]. simpl.
  unfold try_nexenta, restapi_post, send, bind, get_restapi. simpl.
  unfold create_lun_call.
  destruct (rest_request b _) as [b1 [e|j]] eqn:Hpost; simpl.
  { handler_done e. }
  unfold _set_bucket_name_map, restapi_put, send, bind, get_restapi. simpl.
  unfold persist_call.
  destruct (rest_request b1 _) as [b2 [e|j2]] eqn:Hput; simpl.
  { handler_done e. }
  unfold location_result, _get_provider_location, _get_lun_from_name,
    _verify_name_in_map, bind, get_target_name, get_name_map. simpl.
  destruct tn as [t|]; [|done]. simpl.
  rewrite lookup_insert_eq.
  rewrite bool_decide_eq_true_2 by (by eexists). simpl.
  by rewrite lookup_insert_eq.
Qed.

Lemma delete_volume_cases w p m vol lun :
  restapi (self w) = Some p → name_map (self w) = Some m →
  m !! vol_name vol = Some lun →
  let del := delete_lun_call cfg lun in
  let m' := delete (vol_name vol) m in
  match rest_request (backend w) del with
  | (b1, inl e) =>
      delete_volume cfg vol w =
        (handled (sent w del b1) "Error while deleting: " e, inl e)
  | (b1, inr _) =>
      let w1 := with_name_map (sent w del b1) m' in
      match rest_request b1 (persist_call cfg m') with
      | (b2, inl e) =>
          delete_volume cfg vol w =
            (handled (sent w1 (persist_call cfg m') b2)
                     "Error while deleting: " e, inl e)
      | (b2, inr _) =>
          delete_volume cfg vol w = (sent w1 (persist_call cfg m') b2, inr tt)
      end
  end.
Proof.
  intros Hp Hm Hl. unfold delete_volume, bind.
  rewrite (get_lun_from_name_found w m _ lun Hm Hl).
  world_cases w.
  unfold try_nexenta, restapi_delete, send, bind, get_restapi. simpl.
  unfold delete_lun_call.
  destruct (rest_request b _) as [b1 [e|j]] eqn:Hdel; simpl.
  { handler_done e. }
  unfold name_map_pop, bind, get_name_map. simpl. rewrite Hl. simpl.
  unfold _set_bucket_name_map, restapi_put, send, bind, get_restapi. simpl.
  unfold persist_call.
  destruct (rest_request b1 _) as [b2 [e|j2]] eqn:Hput; simpl; [|done].
  handler_done e.
Qed.

Lemma create_cloned_volume_cases w p m vol src srcLun :
  restapi (self w) = Some p → name_map (self w) = Some m →
  m !! vol_name src = Some srcLun →
  match scan_lun_numbers m with
  | None =>
      create_cloned_volume cfg vol src w =
        (with_log w "Failed to allocate LUN number: All 255 lun numbers used, WOW!",
         inl LunSpaceExhausted)
  | Some n =>
      let clone := clone_call cfg srcLun n in
      let post := create_lun_call cfg n (vol_size src) in
      let m' := <[vol_name vol := n]> m in
      match rest_request (backend w) clone with
      | (b1, inl e) =>
          create_cloned_volume cfg vol src w =
            (handled (sent w clone b1) "Error creating cloned volume: " e, inl e)
      | (b1, inr _) =>
          match rest_request b1 post with
          | (b2, inl e) =>
              create_cloned_volume cfg vol src w =
                (handled (sent (sent w clone b1) post b2)
                         "Error creating cloned volume: " e, inl e)
          | (b2, inr _) =>
              let w2 := with_name_map (sent (sent w clone b1) post b2) m' in
              match rest_request b2 (persist_call cfg m') with
              | (b3, inl e) =>
                  create_cloned_volume cfg vol src w =
                    (handled (sent w2 (persist_call cfg m') b3)
                             "Error creating cloned volume: " e, inl e)
              | (b3, inr _) =>
                  create_cloned_volume cfg vol src w =
                    (sent w2 (persist_call cfg m') b3, inr tt)
              end
          end
      end
  end.
Proof.
  intros Hp Hm Hl. unfold create_cloned_volume, bind.
  rewrite (get_lun_from_name_found w m _ srcLun Hm Hl).
  destruct (scan_lun_numbers m) as [n|] eqn:Hscan.
  2: { by rewrite (allocate_lun_number_full w m Hm Hscan). }
  rewrite (allocate_lun_number_found w m n Hm Hscan).
  world_cases w.
  unfold try_nexenta, restapi_post, send, bind, get_restapi. simpl.
  unfold clone_call.
  destruct (rest_request b _) as [b1 [e|j]] eqn:Hclone; simpl.
  { handler_done e. }
  unfold create_lun_call.
  destruct (rest_request b1 _) as [b2 [e|j2]] eqn:Hpost; simpl.
  { handler_done e. }
  unfold _set_bucket_name_map, restapi_put, send, bind, get_restapi. simpl.
  unfold persist_call.
  destruct (rest_request b2 _) as [b3 [e|j3]] eqn:Hput; simpl; [|done].
  handler_done e.
Qed.

(** The requests and the name map that [handled] leaves are those it
    found. *)
Lemma handled_requests w prefix e :
  requests (handled w prefix e) = requests w.
Proof. unfold handled. by destruct (is_nexenta e). Qed.

Lemma handled_self w prefix e : self (handled w prefix e) = self w.
Proof. unfold handled. by destruct (is_nexenta e). Qed.

End Cases.

(** ** What the methods do to the name map, on any world

    Here nothing is assumed about the driver: an attribute may be missing,
    a name may be unknown, any request may fail. *)

Section Frame.
Context {B : Type} `{!External B}.
Variable cfg : config.
Implicit Types (w : world B) (m : gmap string Z).

Ltac run_driver :=
  unfold create_volume, delete_volume, create_volume_from_snapshot,
    create_cloned_volume, extend_volume, create_snapshot, delete_snapshot,
    _get_provider_location, _set_bucket_name_map, _get_lun_from_name,
    _verify_name_in_map, _allocate_lun_number, name_map_setitem, name_map_pop,
    try_nexenta, restapi_post, restapi_put, restapi_delete, restapi_get, send,
    bind, get_restapi, get_name_map, get_target_name, set_name_map, set_self,
    attribute_error, log_error, raise, ret;
  simpl;
  repeat (case_match; simpl in *; simplify_eq; simpl in *);
  repeat match goal with
         | H : Some ?x = Some ?y |- _ =>
             assert (x = y) by congruence; clear H; subst
         end.

Lemma create_volume_step w vol :
  name_map_step (name_map (self w)) (name_map (self (create_volume cfg vol w).1)).
Proof.
  destruct w as [[ra tn nm] b rq lg]. run_driver;
    try apply step_same; try (by apply step_setitem).
Qed.

Lemma delete_volume_step w vol :
  name_map_step (name_map (self w)) (name_map (self (delete_volume cfg vol w).1)).
Proof.
  destruct w as [[ra tn nm] b rq lg]. run_driver;
    try apply step_same; try (by apply step_pop).
Qed.

Lemma create_volume_from_snapshot_step w vol snap :
  name_map_step (name_map (self w))
    (name_map (self (create_volume_from_snapshot cfg vol snap w).1)).
Proof.
  destruct w as [[ra tn nm] b rq lg]. run_driver;
    try apply step_same; try (by apply step_setitem).
Qed.

Lemma create_cloned_volume_step w vol src :
  name_map_step (name_map (self w))
    (name_map (self (create_cloned_volume cfg vol src w).1)).
Proof.
  destruct w as [[ra tn nm] b rq lg]. run_driver;
    try apply step_same; try (by apply step_setitem).
Qed.

Lemma after_op_step op w :
  name_map_step (name_map (self w)) (name_map (self (after_op cfg op w))).
Proof.
  destruct op; simpl.
  - apply create_volume_step.
  - apply delete_volume_step.
  - apply create_volume_from_snapshot_step.
  - apply create_cloned_volume_step.
Qed.

(** A [create_volume] that returns has assigned the number the scan gave;
    a [delete_volume] that returns has removed an entry that was there. *)
Lemma create_volume_returned w vol w' v :
  create_volume cfg vol w = (w', inr v) →
  ∃ m n, name_map (self w) = Some m ∧ scan_lun_numbers m = Some n ∧
         name_map (self w') = Some (<[vol_name vol := n]> m).
Proof.
  destruct w as [[ra tn nm] b rq lg]. revert w' v.
  assert (H : match create_volume cfg vol (World (Driver ra tn nm) b rq lg) with
              | (w', inr _) =>
                  ∃ m n, nm = Some m ∧ scan_lun_numbers m = Some n ∧
                         name_map (self w') = Some (<[vol_name vol := n]> m)
              | (_, inl _) => True
              end).
  { run_driver; eauto. }
  intros w' v Heq. by rewrite Heq in H.
Qed.

Lemma delete_volume_returned w vol w' v :
  delete_volume cfg vol w = (w', inr v) →
  ∃ m lun, name_map (self w) = Some m ∧ m !! vol_name vol = Some lun ∧
           name_map (self w') = Some (delete (vol_name vol) m).
Proof.
  destruct w as [[ra tn nm] b rq lg]. revert w' v.
  assert (H : match delete_volume cfg vol (World (Driver ra tn nm) b rq lg) with
              | (w', inr _) =>
                  ∃ m lun, nm = Some m ∧ m !! vol_name vol = Some lun ∧
                           name_map (self w') = Some (delete (vol_name vol) m)
              | (_, inl _) => True
              end).
  { run_driver; eauto. }
  intros w' v Heq. by rewrite Heq in H.
Qed.

Ltac untouched_leaf :=
  split; [done|];
  first [ exists []; split; [by rewrite app_nil_r | constructor]
        | eexists [_]; split; [reflexivity | by repeat constructor] ].

Lemma extend_volume_untouched w vol new_size :
  name_map_untouched w (extend_volume cfg vol new_size w).1.
Proof. destruct w as [[ra tn nm] b rq lg]. run_driver; untouched_leaf. Qed.

Lemma create_snapshot_untouched w snap :
  name_map_untouched w (create_snapshot cfg snap w).1.
Proof. destruct w as [[ra tn nm] b rq lg]. run_driver; untouched_leaf. Qed.

Lemma delete_snapshot_untouched w snap :
  name_map_untouched w (delete_snapshot cfg snap w).1.
Proof. destruct w as [[ra tn nm] b rq lg]. run_driver; untouched_leaf. Qed.

End Frame.

(** ** Allocation and lookup *)

Section NameMap.
Context {B : Type}.
Implicit Types (w : world B) (m : gmap string Z).

(** C1. On a name map with fewer than 255 entries [_allocate_lun_number]
    returns the lowest number of 1..255 that no entry holds, and leaves
    the world as it was; on a name map in which every number of 1..255 is
    held by some entry it raises [LunSpaceExhausted], returns no number
    and leaves the attributes of the driver as they were. *)
Theorem allocate_lun_number_lowest_free w m
    (Hm : name_map (self w) = Some m) :
  ((size m < 255)%nat →
     ∃ n, _allocate_lun_number w = (w, inr n) ∧
          1 ≤ n ≤ 255 ∧ ¬ lun_in_use m n ∧
          ∀ j, 1 ≤ j < n → lun_in_use m j) ∧
  ((∀ i, 1 ≤ i ≤ 255 → lun_in_use m i) →
     (_allocate_lun_number w).2 = inl LunSpaceExhausted ∧
     self (_allocate_lun_number w).1 = self w).
Proof.
  split.
  - intros Hsize. destruct (scan_lun_numbers_room m Hsize) as [n Hn].
    exists n. split; [by apply (allocate_lun_number_found w m)|].
    by apply scan_lun_numbers_Some.
  - intros Hfull. apply scan_lun_numbers_None in Hfull.
    by rewrite (allocate_lun_number_full w m).
Qed.

(** C3. [_get_lun_from_name] raises exactly when the name is not a key of
    the name map, and the exception is then [UnknownVolume]; when the name
    is a key it returns the number stored under it.  Either way the name
    map is left as it was. *)
Theorem get_lun_from_name_iff_present w m name
    (Hm : name_map (self w) = Some m) :
  ((∃ e, (_get_lun_from_name name w).2 = inl e) ↔ m !! name = None) ∧
  (m !! name = None →
     (_get_lun_from_name name w).2 = inl (UnknownVolume name)) ∧
  (∀ lun, m !! name = Some lun →
     (_get_lun_from_name name w).2 = inr lun) ∧
  name_map (self (_get_lun_from_name name w).1) = Some m.
Proof.
  destruct (m !! name) as [lun|] eqn:Hl.
  - rewrite (get_lun_from_name_found w m name lun) by done. simpl.
    repeat split; try done.
    + by intros [e He].
    + by intros lun' [= ->].
  - rewrite (get_lun_from_name_missing w m name) by done. simpl.
    repeat split; try done. by eexists.
Qed.

End NameMap.

Lemma allocate_lun_number_lowest_free_witness :
  (∃ n, _allocate_lun_number (Mock.ready ∅ []) = (Mock.ready ∅ [], inr n) ∧
        1 ≤ n ≤ 255 ∧ ¬ lun_in_use ∅ n ∧ ∀ j, 1 ≤ j < n → lun_in_use ∅ j) ∧
  ((_allocate_lun_number (Mock.ready Mock.full_map [])).2
     = inl LunSpaceExhausted ∧
   self (_allocate_lun_number (Mock.ready Mock.full_map [])).1
     = self (Mock.ready Mock.full_map [])).
Proof.
  split.
  - apply (proj1 (allocate_lun_number_lowest_free
                    (Mock.ready ∅ []) ∅ eq_refl)).
    rewrite map_size_empty. lia.
  - apply (proj2 (allocate_lun_number_lowest_free
                    (Mock.ready Mock.full_map []) Mock.full_map eq_refl)).
    apply scan_lun_numbers_None. vm_compute. reflexivity.
Defined.

Lemma get_lun_from_name_iff_present_witness :
  (_get_lun_from_name "vol2" (Mock.ready {["vol2" := 2]} [])).2 = inr 2 ∧
  (_get_lun_from_name "vol9" (Mock.ready {["vol2" := 2]} [])).2
    = inl (UnknownVolume "vol9").
Proof.
  split.
  - apply (get_lun_from_name_iff_present
             (Mock.ready {["vol2" := 2]} []) {["vol2" := 2]} "vol2" eq_refl).
    reflexivity.
  - apply (get_lun_from_name_iff_present
             (Mock.ready {["vol2" := 2]} []) {["vol2" := 2]} "vol9" eq_refl).
    reflexivity.
Defined.

(** ** Creating and deleting volumes *)

Section CreateDelete.
Context {B : Type} `{!External B}.
Variable cfg : config.
Implicit Types (w : world B) (m : gmap string Z).

(** C2, as amended.  When [create_volume] fails because no number is free
    or because the create-LUN request fails, the name map is the one it
    started from, no persist request has gone out, and the caller gets
    that error.  When the persist request fails, the caller gets that
    error too, and the name map holds the new entry: the assignment made
    before the request stays. *)
Theorem create_volume_failure_name_map w p m vol
    (Hp : restapi (self w) = Some p)
    (Hm : name_map (self w) = Some m) :
  let out := create_volume cfg vol w in
  (scan_lun_numbers m = None →
     out.2 = inl LunSpaceExhausted ∧
     name_map (self out.1) = Some m ∧
     requests out.1 = requests w) ∧
  (∀ n b1 e,
     scan_lun_numbers m = Some n →
     rest_request (backend w) (create_lun_call cfg n (vol_size vol))
       = (b1, inl e) →
     out.2 = inl e ∧
     name_map (self out.1) = Some m ∧
     requests out.1
       = (requests w ++ [create_lun_call cfg n (vol_size vol)])%list) ∧
  (∀ n b1 j b2 e,
     scan_lun_numbers m = Some n →
     rest_request (backend w) (create_lun_call cfg n (vol_size vol))
       = (b1, inr j) →
     rest_request b1 (persist_call cfg (<[vol_name vol := n]> m))
       = (b2, inl e) →
     out.2 = inl e ∧
     name_map (self out.1) = Some (<[vol_name vol := n]> m)).
Proof.
  intros out. subst out.
  pose proof (create_volume_cases cfg w p m vol Hp Hm) as Hc.
  split; [|split].
  - intros Hscan. rewrite Hscan in Hc. by rewrite Hc.
  - intros n b1 e Hscan Hpost. rewrite Hscan in Hc. simpl in Hc.
    rewrite Hpost in Hc. rewrite Hc. simpl.
    by rewrite handled_self, handled_requests.
  - intros n b1 j b2 e Hscan Hpost Hput. rewrite Hscan in Hc. simpl in Hc.
    rewrite Hpost, Hput in Hc. rewrite Hc. simpl.
    by rewrite handled_self.
Qed.

(** C4. When the name is in the name map and the delete request fails,
    [delete_volume] raises the error of the request, the name map is as
    it was, the entry included, and no persist request has gone out. *)
Theorem delete_volume_failure_keeps_entry w p m vol lun b1 e
    (Hp : restapi (self w) = Some p)
    (Hm : name_map (self w) = Some m)
    (Hl : m !! vol_name vol = Some lun)
    (Hfail : rest_request (backend w) (delete_lun_call cfg lun) = (b1, inl e)) :
  let out := delete_volume cfg vol w in
  out.2 = inl e ∧
  name_map (self out.1) = Some m ∧
  requests out.1 = (requests w ++ [delete_lun_call cfg lun])%list.
Proof.
  intros out. subst out.
  pose proof (delete_volume_cases cfg w p m vol lun Hp Hm Hl) as Hc.
  simpl in Hc. rewrite Hfail in Hc. rewrite Hc. simpl.
  by rewrite handled_self, handled_requests.
Qed.

(** C5. Whatever its outcome, each of [create_volume], [delete_volume],
    [create_volume_from_snapshot] and [create_cloned_volume] takes a name
    map in which no number occurs twice and every number lies in 1..255
    to a name map of which the same is true. *)
Theorem mutating_ops_preserve_lun_invariant op w m
    (Hm : name_map (self w) = Some m)
    (Hinv : lun_invariant m) :
  ∃ m', name_map (self (after_op cfg op w)) = Some m' ∧ lun_invariant m'.
Proof.
  pose proof (after_op_step cfg op w) as Hstep. rewrite Hm in Hstep.
  inversion Hstep as [o Ho|m0 name n Hscan|m0 name]; subst.
  - by exists m.
  - eexists. split; [done|]. by apply lun_invariant_insert.
  - eexists. split; [done|]. by apply lun_invariant_delete.
Qed.

(** C6. When the name is not in the name map, a [create_volume] that
    returns followed by a [delete_volume] of the same volume that returns
    leaves the name map it started from. *)
Theorem create_then_delete_restores_name_map w m vol w1 v w2 u
    (Hm : name_map (self w) = Some m)
    (Hnew : m !! vol_name vol = None)
    (Hcreate : create_volume cfg vol w = (w1, inr v))
    (Hdelete : delete_volume cfg vol w1 = (w2, inr u)) :
  name_map (self w2) = Some m.
Proof.
  apply create_volume_returned in Hcreate as (m0 & n & Hm0 & _ & Hm1).
  apply delete_volume_returned in Hdelete as (m1 & lun & Hm1' & _ & Hm2).
  rewrite Hm in Hm0. injection Hm0 as <-.
  rewrite Hm1 in Hm1'. injection Hm1' as <-.
  rewrite Hm2. f_equal. by apply delete_insert_id.
Qed.

End CreateDelete.

(** C2, as stated, fails: the backend accepts the create-LUN request and
    refuses the persist request; [create_volume] raises, and the name map,
    empty before, holds [vol1 -> 1]. *)
Lemma create_volume_persist_failure_keeps_new_key :
  let w := Mock.ready ∅ [Mock.ok; Mock.down] in
  let out := create_volume Mock.cfg Mock.vol1 w in
  out.2 = inl (NexentaException "connection refused") ∧
  name_map (self out.1) = Some {["vol1" := 1]} ∧
  name_map (self out.1) ≠ name_map (self w).
Proof.
  split; [vm_compute; reflexivity|].
  split; [vm_compute; reflexivity|].
  intros Heq.
  assert (Hl : name_map (self (create_volume Mock.cfg Mock.vol1
                  (Mock.ready ∅ [Mock.ok; Mock.down])).1) ≫= (.!! "vol1")
               = Some 1) by (vm_compute; reflexivity).
  rewrite Heq in Hl. discriminate Hl.
Qed.

Lemma create_volume_failure_name_map_witness :
  ((create_volume Mock.cfg Mock.vol1 (Mock.ready ∅ [Mock.down])).2
     = inl (NexentaException "connection refused") ∧
   name_map (self (create_volume Mock.cfg Mock.vol1
                     (Mock.ready ∅ [Mock.down])).1) = Some ∅ ∧
   requests (create_volume Mock.cfg Mock.vol1 (Mock.ready ∅ [Mock.down])).1
     = [create_lun_call Mock.cfg 1 10]) ∧
  ((create_volume Mock.cfg Mock.vol1 (Mock.ready ∅ [Mock.ok; Mock.down])).2
     = inl (NexentaException "connection refused") ∧
   name_map (self (create_volume Mock.cfg Mock.vol1
                     (Mock.ready ∅ [Mock.ok; Mock.down])).1)
     = Some (<["vol1" := 1]> ∅)).
Proof.
  split.
  - apply (proj1 (proj2 (create_volume_failure_name_map Mock.cfg
                           (Mock.ready ∅ [Mock.down]) Mock.the_proxy ∅
                           Mock.vol1 eq_refl eq_refl))
             1 [] (NexentaException "connection refused")).
    + vm_compute. reflexivity.
    + reflexivity.
  - apply (proj2 (proj2 (create_volume_failure_name_map Mock.cfg
                           (Mock.ready ∅ [Mock.ok; Mock.down]) Mock.the_proxy ∅
                           Mock.vol1 eq_refl eq_refl))
             1 [Mock.down] JNull [] (NexentaException "connection refused")).
    + vm_compute. reflexivity.
    + reflexivity.
    + reflexivity.
Defined.

Lemma delete_volume_failure_keeps_entry_witness :
  let w := Mock.ready {["vol1" := 1]} [Mock.down] in
  (delete_volume Mock.cfg Mock.vol1 w).2
    = inl (NexentaException "connection refused") ∧
  name_map (self (delete_volume Mock.cfg Mock.vol1 w).1)
    = Some {["vol1" := 1]} ∧
  requests (delete_volume Mock.cfg Mock.vol1 w).1
    = [delete_lun_call Mock.cfg 1].
Proof.
  apply (delete_volume_failure_keeps_entry Mock.cfg
           (Mock.ready {["vol1" := 1]} [Mock.down]) Mock.the_proxy
           {["vol1" := 1]} Mock.vol1 1 []
           (NexentaException "connection refused")).
  - reflexivity.
  - reflexivity.
  - reflexivity.
  - reflexivity.
Defined.

Lemma lun_invariant_empty : lun_invariant ∅.
Proof.
  split.
  - intros k1 k2 n Hk. by rewrite lookup_empty in Hk.
  - intros k n Hk. by rewrite lookup_empty in Hk.
Qed.

Lemma mutating_ops_preserve_lun_invariant_witness :
  ∃ m', name_map (self (after_op Mock.cfg (CreateVolume Mock.vol1)
                          (Mock.ready ∅ []))) = Some m' ∧
        lun_invariant m'.
Proof.
  apply (mutating_ops_preserve_lun_invariant Mock.cfg (CreateVolume Mock.vol1)
           (Mock.ready ∅ []) ∅).
  - reflexivity.
  - apply lun_invariant_empty.
Defined.

Lemma create_then_delete_restores_name_map_witness :
  name_map (self (delete_volume Mock.cfg Mock.vol1
                    (create_volume Mock.cfg Mock.vol1 (Mock.ready ∅ [])).1).1)
  = Some ∅.
Proof.
  apply (create_then_delete_restores_name_map Mock.cfg
           (Mock.ready ∅ []) ∅ Mock.vol1
           (create_volume Mock.cfg Mock.vol1 (Mock.ready ∅ [])).1
           (provider_location Mock.cfg "iqn.test" 1)
           (delete_volume Mock.cfg Mock.vol1
              (create_volume Mock.cfg Mock.vol1 (Mock.ready ∅ [])).1).1
           tt).
  - reflexivity.
  - reflexivity.
  - vm_compute. reflexivity.
  - vm_compute. reflexivity.
Defined.

(** ** Setup, clones and the read-only methods *)

Section Lifecycle.
Context {B : Type} `{!External B}.
Variable cfg : config.
Implicit Types (w : world B) (m : gmap string Z).

(** C7, at the place where the driver departs from it.  When the status
    request of [do_setup] raises, [do_setup] does not raise: it logs two
    lines and returns the exception object as its value, and neither
    [target_name] nor [name_map] is assigned. *)
Theorem do_setup_returns_caught_exception w b1 e
    (Hfail : rest_request (backend w) status_call = (b1, inl e)) :
  let out := do_setup cfg w in
  out.2 = inr (Some e) ∧
  target_name (self out.1) = target_name (self w) ∧
  name_map (self out.1) = name_map (self w) ∧
  logged out.1
    = (logged w ++ ["Error reaching NexentaEdge host: " +:+ restapi_host cfg;
                    exn_str e])%list.
Proof.
  intros out. subst out. destruct w as [[ra tn nm] b rq lg].
  unfold status_call in Hfail. simpl in Hfail.
  unfold do_setup.
  destruct (String.eqb (restapi_protocol cfg) "auto");
    unfold bind, attempt, restapi_get, send, bind, get_restapi, set_restapi,
      set_self, log_error, ret; simpl;
    rewrite Hfail; simpl; by rewrite <- app_assoc.
Qed.

(** C8, as amended.  [create_cloned_volume] looks the source up, then
    allocates the new number, then sends the clone request, which names
    the new number as its target object, then sends the create-LUN
    request, and only when both have been accepted assigns the new entry
    and then sends the persist request.  A step that fails ends the
    method: the requests sent are those before it, and the name map is
    touched only after the second request. *)
Theorem create_cloned_volume_order w p m vol src
    (Hp : restapi (self w) = Some p)
    (Hm : name_map (self w) = Some m) :
  let out := create_cloned_volume cfg vol src w in
  (m !! vol_name src = None →
     out.2 = inl (UnknownVolume (vol_name src)) ∧
     requests out.1 = requests w ∧
     name_map (self out.1) = Some m) ∧
  (∀ srcLun, m !! vol_name src = Some srcLun →
     (scan_lun_numbers m = None →
        out.2 = inl LunSpaceExhausted ∧
        requests out.1 = requests w ∧
        name_map (self out.1) = Some m) ∧
     (∀ n, scan_lun_numbers m = Some n →
        let clone := clone_call cfg srcLun n in
        let post := create_lun_call cfg n (vol_size src) in
        let m' := <[vol_name vol := n]> m in
        let put := persist_call cfg m' in
        ∀ b1 r1, rest_request (backend w) clone = (b1, r1) →
        match r1 with
        | inl e =>
            out.2 = inl e ∧
            requests out.1 = (requests w ++ [clone])%list ∧
            name_map (self out.1) = Some m
        | inr _ =>
            ∀ b2 r2, rest_request b1 post = (b2, r2) →
            match r2 with
            | inl e =>
                out.2 = inl e ∧
                requests out.1 = (requests w ++ [clone; post])%list ∧
                name_map (self out.1) = Some m
            | inr _ =>
                ∀ b3 r3, rest_request b2 put = (b3, r3) →
                out.2 = match r3 with inl e => inl e | inr _ => inr tt end ∧
                requests out.1 = (requests w ++ [clone; post; put])%list ∧
                name_map (self out.1) = Some m'
            end
        end)).
Proof.
  intros out. subst out. split.
  - intros Hsrc. unfold create_cloned_volume, bind.
    by rewrite (get_lun_from_name_missing w m _ Hm Hsrc).
  - intros srcLun Hsrc.
    pose proof (create_cloned_volume_cases cfg w p m vol src srcLun Hp Hm Hsrc)
      as Hc.
    split.
    + intros Hscan. rewrite Hscan in Hc. by rewrite Hc.
    + intros n Hscan. rewrite Hscan in Hc. simpl in Hc. simpl.
      intros b1 r1 H1. rewrite H1 in Hc. destruct r1 as [e|j1].
      { rewrite Hc. simpl. by rewrite handled_self, handled_requests. }
      intros b2 r2 H2. rewrite H2 in Hc. destruct r2 as [e|j2].
      { rewrite Hc. simpl. rewrite handled_self, handled_requests. simpl.
        by rewrite <- app_assoc. }
      intros b3 r3 H3. rewrite H3 in Hc. destruct r3 as [e|j3].
      * rewrite Hc. simpl. rewrite handled_self, handled_requests. simpl.
        by rewrite <- !app_assoc.
      * rewrite Hc. simpl. by rewrite <- !app_assoc.
Qed.

(** C9. Whatever their outcome, [extend_volume], [create_snapshot] and
    [delete_snapshot] leave the name map as it was and send no persist
    request. *)
Theorem extend_and_snapshots_leave_name_map w vol new_size snap :
  name_map_untouched w (extend_volume cfg vol new_size w).1 ∧
  name_map_untouched w (create_snapshot cfg snap w).1 ∧
  name_map_untouched w (delete_snapshot cfg snap w).1.
Proof.
  split; [|split].
  - apply extend_volume_untouched.
  - apply create_snapshot_untouched.
  - apply delete_snapshot_untouched.
Qed.


End Lifecycle.

Lemma do_setup_returns_caught_exception_witness :
  let out := do_setup Mock.cfg (Mock.fresh [Mock.down]) in
  out.2 = inr (Some (NexentaException "connection refused")) ∧
  target_name (self out.1) = None ∧
  name_map (self out.1) = None ∧
  logged out.1
    = ["Error reaching NexentaEdge host: 10.0.0.1"; "connection refused"].
Proof.
  apply (do_setup_returns_caught_exception Mock.cfg
           (Mock.fresh [Mock.down]) []
           (NexentaException "connection refused")).
  reflexivity.
Defined.

(** After such a [do_setup] the driver has no name map: the next
    [create_volume] raises [AttributeError]. *)
Example create_volume_after_failed_setup :
  (create_volume Mock.cfg Mock.vol1
     (do_setup Mock.cfg (Mock.fresh [Mock.down])).1).2
  = inl (PyException "AttributeError" "name_map").
Proof. vm_compute. reflexivity. Qed.

(** C8, as stated, fails: with every number taken and the source [v1] in
    the name map, the lookup succeeds and the method ends in
    [LunSpaceExhausted] without having sent the clone request, or any
    request: the allocation comes before it. *)
Lemma create_cloned_volume_allocates_before_clone_request :
  let w := Mock.ready Mock.full_map [] in
  let out := create_cloned_volume Mock.cfg Mock.copy Mock.v1 w in
  (_get_lun_from_name "v1" w).2 = inr 1 ∧
  out.2 = inl LunSpaceExhausted ∧
  requests out.1 = [] ∧
  ¬ (∃ body, RestCall POST (clone_url Mock.cfg 1) body ∈ requests out.1).
Proof.
  assert (Hreq : requests (create_cloned_volume Mock.cfg Mock.copy Mock.v1
                             (Mock.ready Mock.full_map [])).1 = [])
    by (vm_compute; reflexivity).
  split; [vm_compute; reflexivity|].
  split; [vm_compute; reflexivity|].
  split; [exact Hreq|].
  intros [body Hin]. rewrite Hreq in Hin. by apply elem_of_nil in Hin.
Qed.

Lemma create_cloned_volume_order_witness :
  let w := Mock.ready {["v1" := 1]} [] in
  let out := create_cloned_volume Mock.cfg Mock.copy Mock.v1 w in
  out.2 = inr tt ∧
  requests out.1
    = [clone_call Mock.cfg 1 2; create_lun_call Mock.cfg 2 1;
       persist_call Mock.cfg (<["copy" := 2]> {["v1" := 1]})] ∧
  name_map (self out.1) = Some (<["copy" := 2]> {["v1" := 1]}).
Proof.
  assert (Hscan : scan_lun_numbers ({["v1" := 1]} : gmap string Z) = Some 2)
    by (vm_compute; reflexivity).
  exact (proj2 (proj2 (create_cloned_volume_order Mock.cfg
                         (Mock.ready {["v1" := 1]} []) Mock.the_proxy
                         {["v1" := 1]} Mock.copy Mock.v1 eq_refl eq_refl)
                  1 eq_refl)
           2 Hscan [] (inr JNull) eq_refl [] (inr JNull) eq_refl
           [] (inr JNull) eq_refl).
Defined.

Lemma lun_unique_singleton name n : lun_unique {[name := n]}.
Proof.
  intros k1 k2 v H1 H2.
  apply lookup_singleton_Some in H1 as [<- _].
  by apply lookup_singleton_Some in H2 as [<- _].
Qed.



(** The scenario of the specification: [vol1] gets 1, [vol2] gets 2,
    [vol1] is deleted, and [vol3] gets 1 again. *)
Example lowest_free_number_is_reused :
  let w1 := (create_volume Mock.cfg (Volume "vol1" 10 "a") (Mock.ready ∅ [])).1 in
  let w2 := (create_volume Mock.cfg (Volume "vol2" 5 "b") w1).1 in
  let w3 := (delete_volume Mock.cfg (Volume "vol1" 10 "a") w2).1 in
  let w4 := (create_volume Mock.cfg (Volume "vol3" 1 "c") w3).1 in
  name_map (self w2) = Some (<["vol2" := 2]> {["vol1" := 1]}) ∧
  name_map (self w3) = Some {["vol2" := 2]} ∧
  name_map (self w4) = Some (<["vol3" := 1]> {["vol2" := 2]}).
Proof. vm_compute. repeat split. Qed.

(** A [do_setup] that succeeds: the target name is the third word of the
    first line of the status, and a bucket whose metadata holds no name
    map gives the empty name map. *)
Example do_setup_reads_target_name :
  let status :=
    JObj [("value", JStr ("Target 1: iqn.test" +:+ String newline "LUN: 0"))] in
  let out :=
    do_setup Mock.cfg (Mock.fresh [inr status; inr Mock.new_bucket]) in
  out.2 = inr None ∧
  self out.1 = Driver (Some Mock.the_proxy) (Some "iqn.test") (Some ∅).
Proof. vm_compute. split; reflexivity. Qed.

(** A bucket answer that is JSON [null] cannot be searched for a key:
    [do_setup] raises [TypeError] with the target name assigned and no
    name map. *)
Example do_setup_null_bucket_answer :
  let status :=
    JObj [("value", JStr ("Target 1: iqn.test" +:+ String newline "LUN: 0"))] in
  let out := do_setup Mock.cfg (Mock.fresh [inr status; inr JNull]) in
  out.2 = inl (PyException "TypeError"
                 "argument of type 'NoneType' is not iterable") ∧
  self out.1 = Driver (Some Mock.the_proxy) (Some "iqn.test") None.
Proof. vm_compute. split; reflexivity. Qed.

(** ** Splitting and joining strings *)

Section Split.
Implicit Types (s : string) (sep : ascii).

Lemma split_on_cons sep s : ∃ h t, split_on sep s = h :: t.
Proof.
  destruct s as [|c s]; simpl; [by eexists _, _|].
  destruct (Ascii.eqb c sep); [by eexists _, _|].
  destruct (split_on sep s); by eexists _, _.
Qed.

Lemma join_on_cons sep p q rest :
  join_on sep (p :: q :: rest) = p +:+ String sep (join_on sep (q :: rest)).
Proof. done. Qed.

(** Joining what [split] gave returns the string. *)
Lemma join_on_split_on sep s : join_on sep (split_on sep s) = s.
Proof.
  induction s as [|c s IH]; simpl; [done|].
  destruct (Ascii.eqb c sep) eqn:Hc.
  - apply Ascii.eqb_eq in Hc as ->.
    destruct (split_on_cons sep s) as (h & t & Hs). rewrite Hs in *.
    by rewrite join_on_cons, IH.
  - destruct (split_on_cons sep s) as (h & t & Hs). rewrite Hs in *.
    destruct t as [|q t]; [simpl in *; by rewrite IH|].
    rewrite join_on_cons. rewrite join_on_cons in IH. by rewrite <- IH.
Qed.

Lemma length_split_on sep s :
  length (split_on sep s) = S (count_char sep s).
Proof.
  induction s as [|c s IH]; simpl; [done|].
  destruct (Ascii.eqb c sep); simpl; [by rewrite IH|].
  destruct (split_on_cons sep s) as (h & t & Hs). rewrite Hs in *.
  simpl in *. done.
Qed.

Lemma split_on_no_sep sep s p :
  p ∈ split_on sep s → count_char sep p = 0%nat.
Proof.
  revert p. induction s as [|c s IH]; simpl; intros p Hp.
  - apply list_elem_of_singleton in Hp as ->. done.
  - destruct (Ascii.eqb c sep) eqn:Hc.
    + apply elem_of_cons in Hp as [->|Hp]; [done|]. by apply IH.
    + destruct (split_on_cons sep s) as (h & t & Hs). rewrite Hs in *.
      apply elem_of_cons in Hp as [->|Hp].
      * simpl. rewrite Hc. simpl. apply IH. apply list_elem_of_here.
      * apply IH. by apply list_elem_of_further.
Qed.

Lemma split_on_whole sep a :
  count_char sep a = 0%nat → split_on sep a = [a].
Proof.
  induction a as [|c a IH]; simpl; [done|].
  destruct (Ascii.eqb c sep); simpl; [done|]. intros Ha. by rewrite IH.
Qed.

Lemma split_on_app sep a b :
  count_char sep a = 0%nat →
  split_on sep (a +:+ String sep b) = a :: split_on sep b.
Proof.
  induction a as [|c a IH]; simpl.
  - intros _. by rewrite Ascii.eqb_refl.
  - destruct (Ascii.eqb c sep); simpl; [done|]. intros Ha. by rewrite IH.
Qed.

Lemma split_on_hd_app sep a b :
  count_char sep a = 0%nat →
  hd "" (split_on sep (a +:+ b)) = a +:+ hd "" (split_on sep b).
Proof.
  induction a as [|c a IH]; simpl; [done|].
  destruct (Ascii.eqb c sep); simpl; [done|]. intros Ha.
  specialize (IH Ha).
  destruct (split_on_cons sep (a +:+ b)) as (h & t & Hs). rewrite Hs in *.
  simpl in *. by rewrite IH.
Qed.

Lemma split_on_hd_String sep c s :
  Ascii.eqb c sep = false →
  hd "" (split_on sep (String c s)) = String c (hd "" (split_on sep s)).
Proof.
  intros Hc. simpl. rewrite Hc.
  by destruct (split_on_cons sep s) as (h & t & ->).
Qed.

Lemma append_empty_r s : s +:+ "" = s.
Proof.
  induction s as [|c s IH]; [done|].
  change (String c (s +:+ "") = String c s). by rewrite IH.
Qed.

(** The third word of the first line of a status of the expected shape
    is the target name. *)
Lemma third_word value t :
  status_names value t → split_on space (first_line value) !! 2%nat = Some t.
Proof.
  intros (w0 & w1 & rest & -> & [Hs0 Hn0] & [Hs1 Hn1] & [Hst Hnt] & Hrest).
  unfold first_line.
  change (w0 +:+ " " +:+ w1 +:+ " " +:+ t +:+ rest)
    with (w0 +:+ String space (w1 +:+ String space (t +:+ rest))).
  assert (Hfl : ∃ tl, hd "" (split_on newline
                   (w0 +:+ String space (w1 +:+ String space (t +:+ rest))))
                 = w0 +:+ String space (w1 +:+ String space (t +:+ tl)) ∧
                 (tl = "" ∨ ∃ x, tl = String space x)).
  { exists (hd "" (split_on newline rest)). split.
    - rewrite split_on_hd_app by done.
      rewrite split_on_hd_String by done.
      rewrite split_on_hd_app by done.
      rewrite split_on_hd_String by done.
      by rewrite split_on_hd_app by done.
    - destruct Hrest as [->|[x [->| ->]]]; [by left| |by left].
      right. rewrite split_on_hd_String by done. by eexists. }
  destruct Hfl as (tl & -> & Htl).
  rewrite split_on_app by done. rewrite split_on_app by done.
  destruct Htl as [->|[x ->]].
  - rewrite append_empty_r. by rewrite split_on_whole.
  - by rewrite split_on_app.
Qed.

End Split.

(** ** More on the scan and the invariant *)

Section ScanMore.
Implicit Types (m : gmap string Z).

(** The lowest free number of 1..255 is what the scan returns. *)
Lemma scan_lun_numbers_least m n :
  1 ≤ n ≤ 255 → ¬ lun_in_use m n → (∀ j, 1 ≤ j < n → lun_in_use m j) →
  scan_lun_numbers m = Some n.
Proof.
  intros Hn Hfree Hbelow.
  destruct (scan_lun_numbers_le m n Hn Hfree) as (n' & Hscan & Hle).
  destruct (scan_lun_numbers_Some m n' Hscan) as (Hn' & Hfree' & _).
  destruct (decide (n' = n)) as [->|Hne]; [done|].
  destruct Hfree'. apply Hbelow. lia.
Qed.

Lemma lun_in_use_delete m name old j :
  lun_unique m → m !! name = Some old →
  lun_in_use (delete name m) j ↔ lun_in_use m j ∧ j ≠ old.
Proof.
  intros Hu Hold. split.
  - intros [k Hk]. apply lookup_delete_Some in Hk as [Hne Hk].
    split; [by exists k|]. intros ->. apply Hne. by apply (Hu name k old).
  - intros [[k Hk] Hne]. exists k. apply lookup_delete_Some. split; [|done].
    intros <-. congruence.
Qed.

Lemma lun_in_use_insert_new m name n j :
  m !! name = None →
  lun_in_use (<[name := n]> m) j ↔ j = n ∨ lun_in_use m j.
Proof.
  intros Hnew. split.
  - intros [k Hk]. apply lookup_insert_Some in Hk as [[_ <-]|[_ Hk]];
      [by left|right; by exists k].
  - intros [->|[k Hk]].
    + exists name. apply lookup_insert_eq.
    + exists k. rewrite lookup_insert_ne; [done|]. intros <-. congruence.
Qed.

(** Removing an entry makes its number the one the scan returns, unless
    a lower number was free already. *)
Lemma scan_lun_numbers_delete m name old :
  lun_invariant m → m !! name = Some old →
  scan_lun_numbers (delete name m)
  = Some (match scan_lun_numbers m with
          | Some n0 => Z.min old n0
          | None => old
          end).
Proof.
  intros [Hu Hr] Hold. pose proof (Hr name old Hold) as Hrange.
  assert (Hfree : ¬ lun_in_use (delete name m) old).
  { rewrite (lun_in_use_delete m name old) by done. by intros [_ ?]. }
  destruct (scan_lun_numbers m) as [n0|] eqn:Hscan.
  - destruct (scan_lun_numbers_Some m n0 Hscan) as (Hn0 & Hfree0 & Hbelow0).
    assert (n0 ≠ old) by (intros ->; apply Hfree0; by exists name).
    apply scan_lun_numbers_least.
    + lia.
    + destruct (Z.min_spec old n0) as [[_ ->]|[_ ->]]; [done|].
      rewrite (lun_in_use_delete m name old) by done. by intros [? _].
    + intros j Hj. rewrite (lun_in_use_delete m name old) by done.
      split; [apply Hbelow0|]; lia.
  - rewrite scan_lun_numbers_None in Hscan.
    apply scan_lun_numbers_least; [done..|].
    intros j Hj. rewrite (lun_in_use_delete m name old) by done.
    split; [apply Hscan|]; lia.
Qed.

(** The numbers of a name map that keeps the invariant: no repetition,
    all of them in 1..255. *)
Lemma lun_invariant_values m :
  lun_invariant m →
  NoDup ((map_to_list m).*2) ∧ incl ((map_to_list m).*2) (seqZ 1 255).
Proof.
  intros [Hu Hr]. split.
  - apply NoDup_fmap_2_strong; [|apply NoDup_map_to_list].
    intros [k1 v1] [k2 v2] H1 H2 Heq. simpl in Heq. subst v2.
    apply elem_of_map_to_list in H1, H2.
    by rewrite (Hu k1 k2 v1 H1 H2).
  - intros v Hv. apply list_elem_of_In in Hv.
    apply list_elem_of_fmap in Hv as [[k v'] [-> Hkv]].
    apply elem_of_map_to_list in Hkv. change ((k, v').2) with v'.
    apply list_elem_of_In, elem_of_seqZ. specialize (Hr k v' Hkv). lia.
Qed.

Lemma lun_invariant_size m : lun_invariant m → (size m ≤ 255)%nat.
Proof.
  intros Hinv. destruct (lun_invariant_values m Hinv) as [Hnd Hincl].
  apply NoDup_incl_length in Hincl; [|by apply NoDup_ListNoDup].
  by rewrite length_seqZ, length_fmap, length_map_to_list in Hincl.
Qed.

Lemma lun_invariant_full m :
  lun_invariant m → size m = 255%nat → scan_lun_numbers m = None.
Proof.
  intros Hinv Hsize. destruct (lun_invariant_values m Hinv) as [Hnd Hincl].
  apply scan_lun_numbers_None. intros i Hi.
  assert (Hin : In i ((map_to_list m).*2)).
  { apply NoDup_ListNoDup in Hnd.
    apply (NoDup_length_incl Hnd (l' := seqZ 1 255)).
    - rewrite length_seqZ, length_fmap, length_map_to_list. lia.
    - done.
    - apply list_elem_of_In, elem_of_seqZ. lia. }
  apply list_elem_of_In, list_elem_of_fmap in Hin as [[k v] [-> Hkv]].
  exists k. by apply elem_of_map_to_list.
Qed.

End ScanMore.

(** ** Further properties of the lifecycle methods *)

Section Extras.
Context {B : Type} `{!External B}.
Variable cfg : config.
Implicit Types (w : world B) (m : gmap string Z).

Ltac world_cases w :=
  destruct w as [[ra tn nm] b rq lg]; simpl in *; subst.

Ltac handler_done e := unfold handled; by destruct (is_nexenta e).

Ltac run_methods :=
  unfold create_volume, delete_volume, create_volume_from_snapshot,
    create_cloned_volume, extend_volume, create_snapshot, delete_snapshot,
    create_export, initialize_connection, local_path,
    _get_provider_location, _set_bucket_name_map, _get_lun_from_name,
    _verify_name_in_map, _allocate_lun_number, name_map_setitem, name_map_pop,
    try_nexenta, restapi_post, restapi_put, restapi_delete, restapi_get, send,
    bind, get_restapi, get_name_map, get_target_name, set_name_map, set_self,
    attribute_error, log_error, raise, ret;
  simpl;
  repeat (case_match; simpl in *; simplify_eq; simpl in *);
  repeat match goal with
         | H : Some ?x = Some ?y |- _ =>
             assert (x = y) by congruence; clear H; subst
         end.

Ltac persisted_leaf :=
  first [ by left
        | right; unfold persist_call; eexists _, _; split; reflexivity ].

Lemma get_lun_from_name_result w m name :
  name_map (self w) = Some m →
  (_get_lun_from_name name w).2
  = match m !! name with
    | Some lun => inr lun
    | None => inl (UnknownVolume name)
    end.
Proof.
  intros Hm. destruct (m !! name) as [lun|] eqn:Hl.
  - by rewrite (get_lun_from_name_found w m name lun Hm Hl).
  - by rewrite (get_lun_from_name_missing w m name Hm Hl).
Qed.

Lemma create_volume_from_snapshot_cases w p m vol snap srcLun :
  restapi (self w) = Some p → name_map (self w) = Some m →
  m !! snap_volume_name snap = Some srcLun →
  match scan_lun_numbers m with
  | None =>
      create_volume_from_snapshot cfg vol snap w =
        (with_log w "Failed to allocate LUN number: All 255 lun numbers used, WOW!",
         inl LunSpaceExhausted)
  | Some n =>
      let restore := restore_call cfg srcLun (snap_name snap) n in
      let post := create_lun_call cfg n (snap_volume_size snap) in
      let m' := <[vol_name vol := n]> m in
      match rest_request (backend w) restore with
      | (b1, inl e) =>
          create_volume_from_snapshot cfg vol snap w =
            (handled (sent w restore b1) "Error while creating volume: " e, inl e)
      | (b1, inr _) =>
          match rest_request b1 post with
          | (b2, inl e) =>
              create_volume_from_snapshot cfg vol snap w =
                (handled (sent (sent w restore b1) post b2)
                         "Error while creating volume: " e, inl e)
          | (b2, inr _) =>
              let w2 := with_name_map (sent (sent w restore b1) post b2) m' in
              match rest_request b2 (persist_call cfg m') with
              | (b3, inl e) =>
                  create_volume_from_snapshot cfg vol snap w =
                    (handled (sent w2 (persist_call cfg m') b3)
                             "Error while creating volume: " e, inl e)
              | (b3, inr _) =>
                  create_volume_from_snapshot cfg vol snap w =
                    (sent w2 (persist_call cfg m') b3, inr tt)
              end
          end
      end
  end.
Proof.
  intros Hp Hm Hl. unfold create_volume_from_snapshot, bind.
  rewrite (get_lun_from_name_found w m _ srcLun Hm Hl).
  destruct (scan_lun_numbers m) as [n|] eqn:Hscan.
  2: { by rewrite (allocate_lun_number_full w m Hm Hscan). }
  rewrite (allocate_lun_number_found w m n Hm Hscan).
  world_cases w.
  unfold try_nexenta, restapi_post, send, bind, get_restapi. simpl.
  unfold restore_call.
  destruct (rest_request b _) as [b1 [e|j]] eqn:Hrestore; simpl.
  { handler_done e. }
  unfold create_lun_call.
  destruct (rest_request b1 _) as [b2 [e|j2]] eqn:Hpost; simpl.
  { handler_done e. }
  unfold _set_bucket_name_map, restapi_put, send, bind, get_restapi. simpl.
  unfold persist_call.
  destruct (rest_request b2 _) as [b3 [e|j3]] eqn:Hput; simpl; [|done].
  handler_done e.
Qed.

(** X1. Whatever its outcome, a mutating method that has changed the
    name map has, as the last request it sent, asked the backend to
    persist exactly the name map it leaves in memory. *)
Theorem name_map_change_is_persisted op w :
  persisted_or_same cfg w (after_op cfg op w).
Proof.
  destruct w as [[ra tn nm] b rq lg]. unfold persisted_or_same.
  destruct op; simpl; run_methods; persisted_leaf.
Qed.

(** X2. Asked about a name that is not in the name map, [delete_volume],
    [extend_volume], [initialize_connection], [local_path],
    [create_snapshot], [delete_snapshot] and [create_volume_from_snapshot]
    raise [UnknownVolume] and leave the world as it was but for one
    logged line: no request has been sent. *)
Theorem unknown_volume_fails_before_any_request w m vol snap new_size
    (Hm : name_map (self w) = Some m)
    (Hvol : m !! vol_name vol = None)
    (Hsnap : m !! snap_volume_name snap = None) :
  rejected_unknown w (vol_name vol) (delete_volume cfg vol w) ∧
  rejected_unknown w (vol_name vol) (extend_volume cfg vol new_size w) ∧
  rejected_unknown w (vol_name vol) (initialize_connection cfg vol w) ∧
  rejected_unknown w (vol_name vol) (local_path cfg vol w) ∧
  rejected_unknown w (snap_volume_name snap) (create_snapshot cfg snap w) ∧
  rejected_unknown w (snap_volume_name snap) (delete_snapshot cfg snap w) ∧
  rejected_unknown w (snap_volume_name snap)
    (create_volume_from_snapshot cfg vol snap w).
Proof.
  unfold rejected_unknown, delete_volume, extend_volume, initialize_connection,
    local_path, create_snapshot, delete_snapshot, create_volume_from_snapshot,
    bind.
  rewrite (get_lun_from_name_missing w m _ Hm Hvol).
  rewrite (get_lun_from_name_missing w m _ Hm Hsnap).
  done.
Qed.

(** X3. [create_volume_from_snapshot], once the snapshot's volume is
    found, allocates the new number, sends the restore request that names
    it, then the create-LUN request, and only when both are accepted
    assigns the entry and sends the persist request.  With no number free
    it sends nothing; a refused request ends it with that error and with
    the name map untouched unless the refused request is the persist. *)
Theorem create_volume_from_snapshot_order w p m vol snap srcLun
    (Hp : restapi (self w) = Some p)
    (Hm : name_map (self w) = Some m)
    (Hsrc : m !! snap_volume_name snap = Some srcLun) :
  let out := create_volume_from_snapshot cfg vol snap w in
  (scan_lun_numbers m = None →
     out.2 = inl LunSpaceExhausted ∧
     requests out.1 = requests w ∧
     name_map (self out.1) = Some m) ∧
  (∀ n, scan_lun_numbers m = Some n →
     let restore := restore_call cfg srcLun (snap_name snap) n in
     let post := create_lun_call cfg n (snap_volume_size snap) in
     let m' := <[vol_name vol := n]> m in
     let put := persist_call cfg m' in
     ∀ b1 r1, rest_request (backend w) restore = (b1, r1) →
     match r1 with
     | inl e =>
         out.2 = inl e ∧
         requests out.1 = (requests w ++ [restore])%list ∧
         name_map (self out.1) = Some m
     | inr _ =>
         ∀ b2 r2, rest_request b1 post = (b2, r2) →
         match r2 with
         | inl e =>
             out.2 = inl e ∧
             requests out.1 = (requests w ++ [restore; post])%list ∧
             name_map (self out.1) = Some m
         | inr _ =>
             ∀ b3 r3, rest_request b2 put = (b3, r3) →
             out.2 = match r3 with inl e => inl e | inr _ => inr tt end ∧
             requests out.1 = (requests w ++ [restore; post; put])%list ∧
             name_map (self out.1) = Some m'
         end
     end).
Proof.
  intros out. subst out.
  pose proof (create_volume_from_snapshot_cases w p m vol snap srcLun Hp Hm Hsrc)
    as Hc.
  split.
  - intros Hscan. rewrite Hscan in Hc. by rewrite Hc.
  - intros n Hscan. rewrite Hscan in Hc. simpl in Hc. simpl.
    intros b1 r1 H1. rewrite H1 in Hc. destruct r1 as [e|j1].
    { rewrite Hc. simpl. by rewrite handled_self, handled_requests. }
    intros b2 r2 H2. rewrite H2 in Hc. destruct r2 as [e|j2].
    { rewrite Hc. simpl. rewrite handled_self, handled_requests. simpl.
      by rewrite <- app_assoc. }
    intros b3 r3 H3. rewrite H3 in Hc. destruct r3 as [e|j3].
    + rewrite Hc. simpl. rewrite handled_self, handled_requests. simpl.
      by rewrite <- !app_assoc.
    + rewrite Hc. simpl. by rewrite <- !app_assoc.
Qed.

(** X4. When the scan finds a number and the backend accepts both
    requests, [create_volume] returns the location of that number, has
    sent the create-LUN request and then the persist request, and the
    volume can be addressed at once: the lookup, [create_export],
    [local_path] and [initialize_connection] all answer with that number,
    [create_export] with the very value [create_volume] returned, and the
    other names are looked up as before. *)
Theorem created_volume_is_addressable w p t m vol n b1 j1 b2 j2
    (Hp : restapi (self w) = Some p)
    (Ht : target_name (self w) = Some t)
    (Hm : name_map (self w) = Some m)
    (Hscan : scan_lun_numbers m = Some n)
    (Hpost : rest_request (backend w) (create_lun_call cfg n (vol_size vol))
             = (b1, inr j1))
    (Hput : rest_request b1 (persist_call cfg (<[vol_name vol := n]> m))
            = (b2, inr j2)) :
  let out := create_volume cfg vol w in
  out.2 = inr (provider_location cfg t n) ∧
  requests out.1
    = (requests w ++ [create_lun_call cfg n (vol_size vol);
                      persist_call cfg (<[vol_name vol := n]> m)])%list ∧
  (_get_lun_from_name (vol_name vol) out.1).2 = inr n ∧
  (create_export cfg vol out.1).2 = out.2 ∧
  (local_path cfg vol out.1).2 = inr (bucket_path cfg +:+ "/" +:+ str n) ∧
  (initialize_connection cfg vol out.1).2
    = inr (Connection "iscsi"
             (ConnectionData (bucket_path cfg) true n t
                (restapi_host cfg +:+ ":" +:+
                 str (iscsi_target_portal_port cfg))
                (vol_id vol) "rw")) ∧
  ∀ other, other ≠ vol_name vol →
    (_get_lun_from_name other out.1).2 = (_get_lun_from_name other w).2.
Proof.
  intros out. subst out.
  pose proof (create_volume_cases cfg w p m vol Hp Hm) as Hc.
  rewrite Hscan in Hc. simpl in Hc. rewrite Hpost, Hput in Hc.
  rewrite Hc. unfold location_result. rewrite Ht. simpl.
  set (w' := sent _ _ _).
  assert (Hm' : name_map (self w') = Some (<[vol_name vol := n]> m)) by done.
  assert (Ht' : target_name (self w') = Some t) by done.
  assert (Hl : <[vol_name vol := n]> m !! vol_name vol = Some n)
    by apply lookup_insert_eq.
  assert (Hget : _get_lun_from_name (vol_name vol) w' = (w', inr n))
    by (by apply (get_lun_from_name_found w' (<[vol_name vol := n]> m))).
  split; [done|]. split; [by rewrite <- app_assoc|].
  split; [by rewrite Hget|].
  split.
  { unfold create_export, _get_provider_location, bind, get_target_name.
    rewrite Ht'. by rewrite Hget. }
  split.
  { unfold local_path, bind. by rewrite Hget. }
  split.
  { unfold initialize_connection, bind, get_target_name.
    rewrite Hget. by rewrite Ht'. }
  intros other Hne.
  rewrite (get_lun_from_name_result w' _ other Hm').
  rewrite (get_lun_from_name_result w _ other Hm).
  by rewrite lookup_insert_ne.
Qed.

(** X5. After a [delete_volume] that returned, the volume is unknown: the
    lookup of its name raises [UnknownVolume], a second [delete_volume]
    is rejected without a request, and every other name is looked up as
    before. *)
Theorem deleted_volume_is_forgotten w vol w' u
    (Hdel : delete_volume cfg vol w = (w', inr u)) :
  (_get_lun_from_name (vol_name vol) w').2
    = inl (UnknownVolume (vol_name vol)) ∧
  rejected_unknown w' (vol_name vol) (delete_volume cfg vol w') ∧
  ∀ other, other ≠ vol_name vol →
    (_get_lun_from_name other w').2 = (_get_lun_from_name other w).2.
Proof.
  apply (delete_volume_returned cfg) in Hdel as (m & lun & Hm & Hl & Hm').
  assert (Hgone : delete (vol_name vol) m !! vol_name vol = None)
    by apply lookup_delete_eq.
  split; [|split].
  - by rewrite (get_lun_from_name_missing w' _ _ Hm' Hgone).
  - unfold rejected_unknown, delete_volume, bind.
    by rewrite (get_lun_from_name_missing w' _ _ Hm' Hgone).
  - intros other Hne.
    rewrite (get_lun_from_name_result w' _ other Hm').
    rewrite (get_lun_from_name_result w _ other Hm).
    by rewrite lookup_delete_ne.
Qed.

(** X6. On a name map that keeps the invariant, a [delete_volume] that
    returned has released the number of the volume: the next allocation
    returns that number, or the number that was free before if that one
    is lower. *)
Theorem delete_volume_releases_number w m vol old w' u
    (Hm : name_map (self w) = Some m)
    (Hinv : lun_invariant m)
    (Hold : m !! vol_name vol = Some old)
    (Hdel : delete_volume cfg vol w = (w', inr u)) :
  _allocate_lun_number w'
  = (w', inr (match scan_lun_numbers m with
              | Some n0 => Z.min old n0
              | None => old
              end)).
Proof.
  apply (delete_volume_returned cfg) in Hdel as (m0 & lun & Hm0 & Hl & Hm').
  rewrite Hm in Hm0. injection Hm0 as <-.
  apply (allocate_lun_number_found w' (delete (vol_name vol) m)); [done|].
  by apply scan_lun_numbers_delete.
Qed.

(** X7. When the backend accepts the delete request and refuses the
    persist request, [delete_volume] raises the error of the persist
    request, and the entry is gone from the name map in memory all the
    same: the volume is unknown from then on. *)
Theorem delete_volume_persist_failure w p m vol lun b1 j b2 e
    (Hp : restapi (self w) = Some p)
    (Hm : name_map (self w) = Some m)
    (Hl : m !! vol_name vol = Some lun)
    (Hdel : rest_request (backend w) (delete_lun_call cfg lun) = (b1, inr j))
    (Hput : rest_request b1 (persist_call cfg (delete (vol_name vol) m))
            = (b2, inl e)) :
  let out := delete_volume cfg vol w in
  out.2 = inl e ∧
  name_map (self out.1) = Some (delete (vol_name vol) m) ∧
  (_get_lun_from_name (vol_name vol) out.1).2
    = inl (UnknownVolume (vol_name vol)).
Proof.
  intros out. subst out.
  pose proof (delete_volume_cases cfg w p m vol lun Hp Hm Hl) as Hc.
  simpl in Hc. rewrite Hdel, Hput in Hc. rewrite Hc. simpl.
  assert (Hm' : name_map (self (handled
            (sent (with_name_map (sent w (delete_lun_call cfg lun) b1)
                     (delete (vol_name vol) m))
                  (persist_call cfg (delete (vol_name vol) m)) b2)
            "Error while deleting: " e)) = Some (delete (vol_name vol) m))
    by (by rewrite handled_self).
  split; [done|]. split; [done|].
  rewrite (get_lun_from_name_result _ _ _ Hm'). by rewrite lookup_delete_eq.
Qed.

(** X8. A name map that keeps the invariant has at most 255 entries, and
    [_allocate_lun_number] raises [LunSpaceExhausted] on it exactly when
    it has 255. *)
Theorem allocation_fails_iff_map_is_full w m
    (Hm : name_map (self w) = Some m)
    (Hinv : lun_invariant m) :
  (size m ≤ 255)%nat ∧
  ((_allocate_lun_number w).2 = inl LunSpaceExhausted ↔ size m = 255%nat).
Proof.
  pose proof (lun_invariant_size m Hinv) as Hle. split; [done|]. split.
  - intros Hfail. destruct (decide (size m < 255)%nat) as [Hlt|]; [|lia].
    destruct (scan_lun_numbers_room m Hlt) as [n Hn].
    rewrite (allocate_lun_number_found w m n Hm Hn) in Hfail. done.
  - intros Hsize. apply (lun_invariant_full m Hinv) in Hsize.
    by rewrite (allocate_lun_number_full w m Hm Hsize).
Qed.

Lemma create_all_from good (volumes : list volume) :
  accepting good →
  ∀ (k : nat) w p t m,
    good (backend w) →
    restapi (self w) = Some p → target_name (self w) = Some t →
    name_map (self w) = Some m →
    (∀ j, lun_in_use m j ↔ 1 ≤ j ≤ Z.of_nat k) →
    (k + length volumes ≤ 255)%nat →
    NoDup (vol_name <$> volumes) →
    (∀ v, v ∈ volumes → m !! vol_name v = None) →
    ∃ m', name_map (self (create_all cfg volumes w)) = Some m' ∧
          (∀ (i : nat) v, volumes !! i = Some v →
             m' !! vol_name v = Some (Z.of_nat (k + i) + 1)) ∧
          (∀ name x, m !! name = Some x → m' !! name = Some x) ∧
          size m' = (size m + length volumes)%nat.
Proof.
  intros Hacc. induction volumes as [|v vs IH];
    intros k w p t m Hgood Hp Ht Hm Huse Hlen Hnd Hnew; simpl.
  - exists m. repeat split; (done || simpl; lia).
  - simpl in Hlen. apply NoDup_cons in Hnd as [Hv Hnd].
    assert (Hvnew : m !! vol_name v = None)
      by (apply Hnew; apply list_elem_of_here).
    assert (Hscan : scan_lun_numbers m = Some (Z.of_nat k + 1)).
    { apply scan_lun_numbers_least.
      - lia.
      - rewrite Huse. lia.
      - intros j Hj. apply Huse. lia. }
    pose proof (create_volume_cases cfg w p m v Hp Hm) as Hc.
    rewrite Hscan in Hc. simpl in Hc.
    destruct (Hacc (backend w) (create_lun_call cfg (Z.of_nat k + 1) (vol_size v))
                Hgood) as (b1 & j1 & Hpost & Hgood1).
    rewrite Hpost in Hc.
    destruct (Hacc b1 (persist_call cfg (<[vol_name v := Z.of_nat k + 1]> m))
                Hgood1) as (b2 & j2 & Hput & Hgood2).
    rewrite Hput in Hc. rewrite Hc. simpl.
    set (m1 := <[vol_name v := Z.of_nat k + 1]> m).
    set (w1 := sent _ _ _).
    destruct (IH (S k) w1 p t m1) as (m' & Hm' & Hidx & Hkeep & Hsize);
      try done.
    + intros j. unfold m1. rewrite lun_in_use_insert_new by done.
      rewrite Huse. lia.
    + lia.
    + intros v' Hv'. unfold m1. rewrite lookup_insert_ne.
      * apply Hnew. by apply list_elem_of_further.
      * intros Heq. apply Hv. rewrite Heq. apply list_elem_of_fmap.
        by exists v'.
    + exists m'. split; [done|]. split; [|split].
      * intros [|i] v' Hi; simpl in Hi.
        -- injection Hi as <-. rewrite Nat.add_0_r.
           apply Hkeep. apply lookup_insert_eq.
        -- rewrite (Hidx i v' Hi). f_equal. lia.
      * intros name x Hx. apply Hkeep. unfold m1.
        rewrite lookup_insert_ne; [done|]. intros <-. congruence.
      * rewrite Hsize. unfold m1. rewrite map_size_insert_None by done. lia.
Qed.

(** X9. Starting from the empty name map and facing a backend that
    accepts every request, creating up to 255 volumes with distinct names
    one after the other gives the first volume number 1, the second
    number 2, and so on, and the name map ends with one entry per
    volume. *)
Theorem create_all_numbers_in_order good volumes w p t
    (Hacc : accepting good)
    (Hgood : good (backend w))
    (Hp : restapi (self w) = Some p)
    (Ht : target_name (self w) = Some t)
    (Hm : name_map (self w) = Some ∅)
    (Hlen : (length volumes ≤ 255)%nat)
    (Hnd : NoDup (vol_name <$> volumes)) :
  ∃ m', name_map (self (create_all cfg volumes w)) = Some m' ∧
        size m' = length volumes ∧
        ∀ (i : nat) v, volumes !! i = Some v →
          m' !! vol_name v = Some (Z.of_nat i + 1).
Proof.
  destruct (create_all_from good volumes Hacc 0 w p t ∅)
    as (m' & Hm' & Hidx & _ & Hsize); try done.
  - intros j. split; [|lia]. intros [k Hk]. by rewrite lookup_empty in Hk.
  - exists m'. split; [done|]. split.
    + by rewrite Hsize, map_size_empty.
    + intros i v Hi. by rewrite (Hidx i v Hi).
Qed.

(** X10. [initialize_connection], [local_path] and [create_export] only
    read: whatever their outcome, the attributes of the driver and the
    backend are as they were and no request has been sent. *)
Theorem queries_change_nothing w vol :
  (self (initialize_connection cfg vol w).1 = self w ∧
   backend (initialize_connection cfg vol w).1 = backend w ∧
   requests (initialize_connection cfg vol w).1 = requests w) ∧
  (self (local_path cfg vol w).1 = self w ∧
   backend (local_path cfg vol w).1 = backend w ∧
   requests (local_path cfg vol w).1 = requests w) ∧
  (self (create_export cfg vol w).1 = self w ∧
   backend (create_export cfg vol w).1 = backend w ∧
   requests (create_export cfg vol w).1 = requests w).
Proof.
  destruct w as [[ra tn nm] b rq lg].
  repeat split; run_methods; done.
Qed.

(** X11. In a name map where no number is held twice, two volumes with
    different names have different object paths, and the requests that
    delete them differ. *)
Theorem distinct_volumes_have_distinct_objects w m vol1 vol2 lun1 lun2
    (Hm : name_map (self w) = Some m)
    (Hu : lun_unique m)
    (H1 : m !! vol_name vol1 = Some lun1)
    (H2 : m !! vol_name vol2 = Some lun2)
    (Hne : vol_name vol1 ≠ vol_name vol2) :
  (local_path cfg vol1 w).2 ≠ (local_path cfg vol2 w).2 ∧
  delete_lun_call cfg lun1 ≠ delete_lun_call cfg lun2.
Proof.
  assert (Hlun : lun1 ≠ lun2).
  { intros ->. apply Hne. by apply (Hu _ _ lun2). }
  split.
  - unfold local_path, bind.
    rewrite (get_lun_from_name_found w m _ lun1 Hm H1).
    rewrite (get_lun_from_name_found w m _ lun2 Hm H2). simpl.
    intros [= Heq]. apply Hlun.
    apply (inj (String.app (bucket_path cfg))) in Heq.
    apply (inj (String.app "/")) in Heq.
    by apply (inj pretty) in Heq.
  - unfold delete_lun_call. intros [= Heq _]. apply Hlun.
    change (str lun1 = str lun2) in Heq. unfold str in Heq.
    by apply (inj pretty) in Heq.
Qed.

(** Where [json_get] finds an item, the subscript gives it. *)
Lemma json_get_subscript key j v :
  json_get key j = Some v → json_subscript key j = inr v.
Proof. destruct j; simpl; try done. by intros ->. Qed.

(** [do_setup] from the point where the status has been fetched. *)
Lemma do_setup_after_status w b1 rsp :
  rest_request (backend w) status_call = (b1, inr rsp) →
  ∃ px,
    do_setup cfg w
    = (status <- of_result (json_subscript "value" rsp);;
       match status with
       | JStr value =>
           match split_on space (first_line value) !! 2%nat with
           | Some name =>
               (set_target_name name;;;
                namemap <- _get_bucket_name_map cfg;;
                set_name_map namemap;;;
                ret None)
           | None => raise (PyException "IndexError" "list index out of range")
           end
       | _ =>
           raise (PyException "AttributeError"
                    ("'" +:+ type_name status +:+
                     "' object has no attribute 'split'"))
       end)
        (World (Driver (Some px) (target_name (self w)) (name_map (self w)))
               b1 (requests w ++ [status_call]) (logged w)).
Proof.
  intros Hstatus. destruct w as [[ra tn nm] b rq lg].
  unfold status_call in Hstatus. simpl in Hstatus.
  unfold do_setup.
  destruct (String.eqb (restapi_protocol cfg) "auto"); eexists;
    unfold bind at 1; unfold set_restapi, set_self; simpl;
    unfold bind at 1; unfold attempt, restapi_get, send;
    unfold bind at 1; unfold get_restapi; simpl;
    rewrite Hstatus; reflexivity.
Qed.

(** [_get_bucket_name_map] once the bucket has answered: nothing but the
    request is left behind, and the result goes by the shape of the
    answer. *)
Lemma get_bucket_name_map_cases w p b2 rsp2 :
  restapi (self w) = Some p →
  rest_request (backend w) (bucket_call cfg) = (b2, inr rsp2) →
  ∃ r, _get_bucket_name_map cfg w = (sent w (bucket_call cfg) b2, r) ∧
       (∀ fields, rsp2 = JObj fields →
          assoc_get "bucketMetadata" fields = None → r = inr ∅) ∧
       (∀ fields meta, rsp2 = JObj fields →
          assoc_get "bucketMetadata" fields = Some (JObj meta) →
          assoc_get "X-Name-Map" meta = None → r = inr ∅) ∧
       (∀ fields meta s, rsp2 = JObj fields →
          assoc_get "bucketMetadata" fields = Some (JObj meta) →
          assoc_get "X-Name-Map" meta = Some (JStr s) → r = json_loads s) ∧
       (rsp2 = JNull ∨ (∃ n, rsp2 = JInt n) →
          ∃ msg, r = inl (PyException "TypeError" msg)).
Proof.
  intros Hp Hbucket. destruct w as [[ra tn nm] b rq lg].
  simpl in Hp, Hbucket. subst ra. unfold bucket_call in *.
  unfold _get_bucket_name_map, loads_name_map, restapi_get, send, bind,
    get_restapi, of_result, sent. simpl. rewrite Hbucket. simpl.
  destruct rsp2 as [|n|str|fields]; simpl;
    [| |destruct (substring_of "bucketMetadata" str); simpl
     |destruct (assoc_get "bucketMetadata" fields) as [[|n|str|meta]|] eqn:Hmeta;
        simpl;
        [| |destruct (substring_of "X-Name-Map" str); simpl
         |destruct (assoc_get "X-Name-Map" meta) as [[|n|s|o]|] eqn:Hstored;
            simpl|]];
    (eexists; split; [reflexivity|]);
    repeat split; intros;
    repeat match goal with
           | H : _ ∨ _ |- _ => destruct H
           | H : ∃ _, _ |- _ => destruct H
           end;
    simplify_eq; try done; by eexists.
Qed.

(** X12. When the status is fetched and has the expected shape and the
    bucket is fetched, [do_setup] has sent these two requests in this
    order and assigned the third word of the first status line as the
    target name.  For a bucket answer that is a dictionary without
    [bucketMetadata], or whose [bucketMetadata] is a dictionary without
    [X-Name-Map], the name map is empty; with a string stored under
    [X-Name-Map] it is what [json.loads] makes of that string; [do_setup]
    then returns [None].  For a bucket answer that is [null] or a number
    the key test raises [TypeError] and no name map is assigned. *)
Theorem do_setup_reads_target_and_name_map w b1 rsp value t b2 rsp2
    (Hstatus : rest_request (backend w) status_call = (b1, inr rsp))
    (Hvalue : json_get "value" rsp = Some (JStr value))
    (Hnames : status_names value t)
    (Hbucket : rest_request b1 (bucket_call cfg) = (b2, inr rsp2)) :
  let out := do_setup cfg w in
  target_name (self out.1) = Some t ∧
  is_Some (restapi (self out.1)) ∧
  requests out.1 = (requests w ++ [status_call; bucket_call cfg])%list ∧
  (∀ fields, rsp2 = JObj fields →
     assoc_get "bucketMetadata" fields = None →
     out.2 = inr None ∧ name_map (self out.1) = Some ∅) ∧
  (∀ fields meta, rsp2 = JObj fields →
     assoc_get "bucketMetadata" fields = Some (JObj meta) →
     assoc_get "X-Name-Map" meta = None →
     out.2 = inr None ∧ name_map (self out.1) = Some ∅) ∧
  (∀ fields meta s m, rsp2 = JObj fields →
     assoc_get "bucketMetadata" fields = Some (JObj meta) →
     assoc_get "X-Name-Map" meta = Some (JStr s) →
     json_loads s = inr m →
     out.2 = inr None ∧ name_map (self out.1) = Some m) ∧
  (rsp2 = JNull ∨ (∃ n, rsp2 = JInt n) →
     (∃ msg, out.2 = inl (PyException "TypeError" msg)) ∧
     name_map (self out.1) = name_map (self w)).
Proof.
  intros out. subst out.
  destruct (do_setup_after_status w b1 rsp Hstatus) as [px Hrun].
  rewrite (json_get_subscript _ _ _ Hvalue) in Hrun.
  unfold bind at 1 in Hrun. unfold of_result at 1 in Hrun.
  rewrite (third_word value t Hnames) in Hrun.
  unfold bind at 1 in Hrun. unfold set_target_name, set_self in Hrun.
  destruct (get_bucket_name_map_cases
              (World (Driver (Some px) (Some t) (name_map (self w)))
                     b1 (requests w ++ [status_call]) (logged w))
              px b2 rsp2 eq_refl Hbucket)
    as (r & Hr & Hnometa & Hnomap & Hload & Htype).
  simpl in Hrun. unfold bind at 1 in Hrun. rewrite Hr in Hrun.
  rewrite Hrun. clear Hrun Hr.
  assert (Hreq : ((requests w ++ [status_call]) ++ [bucket_call cfg])%list
                 = (requests w ++ [status_call; bucket_call cfg])%list)
    by (by rewrite <- app_assoc).
  destruct r as [e|m0]; simpl;
    (split; [done|]); (split; [by eexists|]); (split; [exact Hreq|]).
  - split; [|split; [|split]].
    + intros fields -> Hmeta. by specialize (Hnometa fields eq_refl Hmeta).
    + intros fields meta -> Hmeta Hmap.
      by specialize (Hnomap fields meta eq_refl Hmeta Hmap).
    + intros fields meta s m -> Hmeta Hmap Hs.
      specialize (Hload fields meta s eq_refl Hmeta Hmap). congruence.
    + intros Hshape. destruct (Htype Hshape) as [msg [= ->]].
      split; [by eexists|done].
  - split; [|split; [|split]].
    + intros fields -> Hmeta.
      specialize (Hnometa fields eq_refl Hmeta). by injection Hnometa as ->.
    + intros fields meta -> Hmeta Hmap.
      specialize (Hnomap fields meta eq_refl Hmeta Hmap).
      by injection Hnomap as ->.
    + intros fields meta s m -> Hmeta Hmap Hs.
      specialize (Hload fields meta s eq_refl Hmeta Hmap).
      rewrite Hs in Hload. by injection Hload as ->.
    + intros Hshape. by destruct (Htype Hshape) as [msg ?].
Qed.

(** X13. When the status is fetched and the bucket fetch fails,
    [do_setup] raises the error of the bucket fetch and leaves the driver
    half set up: the target name is assigned, the name map is not. *)
Theorem do_setup_bucket_failure_leaves_half_setup w b1 rsp value t b2 e
    (Hstatus : rest_request (backend w) status_call = (b1, inr rsp))
    (Hvalue : json_get "value" rsp = Some (JStr value))
    (Hnames : status_names value t)
    (Hbucket : rest_request b1 (bucket_call cfg) = (b2, inl e)) :
  let out := do_setup cfg w in
  out.2 = inl e ∧
  target_name (self out.1) = Some t ∧
  name_map (self out.1) = name_map (self w).
Proof.
  intros out. subst out.
  destruct (do_setup_after_status w b1 rsp Hstatus) as [px Hrun].
  rewrite (json_get_subscript _ _ _ Hvalue) in Hrun.
  unfold bind at 1 in Hrun. unfold of_result at 1 in Hrun.
  rewrite (third_word value t Hnames) in Hrun.
  unfold bucket_call in Hbucket.
  unfold bind, set_target_name, set_self, _get_bucket_name_map, restapi_get,
    send, bind, get_restapi in Hrun. simpl in Hrun. rewrite Hbucket in Hrun.
  by rewrite Hrun.
Qed.

(** X14. When the first line of the fetched status has fewer than two
    spaces, so fewer than three words, [do_setup] raises [IndexError]:
    this error is not caught, nothing is assigned, and the bucket is not
    fetched. *)
Theorem do_setup_short_status_line w b1 rsp value
    (Hstatus : rest_request (backend w) status_call = (b1, inr rsp))
    (Hvalue : json_get "value" rsp = Some (JStr value))
    (Hshort : (count_char space (first_line value) < 2)%nat) :
  let out := do_setup cfg w in
  out.2 = inl (PyException "IndexError" "list index out of range") ∧
  target_name (self out.1) = target_name (self w) ∧
  name_map (self out.1) = name_map (self w) ∧
  requests out.1 = (requests w ++ [status_call])%list.
Proof.
  intros out. subst out.
  destruct (do_setup_after_status w b1 rsp Hstatus) as [px Hrun].
  rewrite (json_get_subscript _ _ _ Hvalue) in Hrun.
  unfold bind at 1 in Hrun. unfold of_result at 1 in Hrun.
  rewrite (lookup_ge_None_2 (split_on space (first_line value)) 2) in Hrun.
  - by rewrite Hrun.
  - rewrite length_split_on. lia.
Qed.

Ltac run_setup :=
  unfold do_setup, _get_bucket_name_map, loads_name_map, attempt, restapi_get,
    send, bind, get_restapi, set_restapi, set_target_name, set_name_map,
    set_self, of_result, attribute_error, log_error, raise, ret;
  simpl;
  repeat (case_match; simpl in *; simplify_eq; simpl in *).

(** X15. On any world, a [do_setup] that returns [None] leaves a driver
    on which [restapi], [target_name] and [name_map] all exist. *)
Theorem do_setup_none_means_ready w :
  (do_setup cfg w).2 = inr None →
  is_Some (restapi (self (do_setup cfg w).1)) ∧
  is_Some (target_name (self (do_setup cfg w).1)) ∧
  is_Some (name_map (self (do_setup cfg w).1)).
Proof.
  destruct w as [[ra tn nm] b rq lg]. run_setup; intros; simplify_eq;
    repeat split; by eexists.
Qed.

End Extras.

(** X16. [__init__] accepts a volume path with exactly two slashes and
    splits it into cluster, tenant and bucket, none of which contains a
    slash and which joined by slashes give the path back; any other path
    ends the construction with the [ValueError] of the failed
    unpacking. *)
Theorem init_splits_volume_path (c : configuration) :
  (count_char slash (nexenta_volume c) = 2%nat →
     ∃ cfg, __init__ (Some c) = inr cfg ∧
            bucket_path cfg = nexenta_volume c ∧
            cluster cfg +:+ "/" +:+ tenant cfg +:+ "/" +:+ bucket cfg
              = bucket_path cfg ∧
            count_char slash (cluster cfg) = 0%nat ∧
            count_char slash (tenant cfg) = 0%nat ∧
            count_char slash (bucket cfg) = 0%nat) ∧
  (count_char slash (nexenta_volume c) ≠ 2%nat →
     __init__ (Some c)
       = inl (unpack_error (S (count_char slash (nexenta_volume c))))).
Proof.
  pose proof (length_split_on slash (nexenta_volume c)) as Hlen.
  pose proof (join_on_split_on slash (nexenta_volume c)) as Hjoin.
  pose proof (split_on_no_sep slash (nexenta_volume c)) as Hno.
  unfold __init__.
  destruct (split_on slash (nexenta_volume c)) as [|p1 [|p2 [|p3 [|p4 l]]]];
    simpl in Hlen; split; intros Hc; try lia;
    try (by rewrite <- Hlen).
  eexists. split; [done|]. simpl. repeat split; try done.
  - apply Hno. apply list_elem_of_here.
  - apply Hno. apply list_elem_of_further, list_elem_of_here.
  - apply Hno. do 2 apply list_elem_of_further. apply list_elem_of_here.
Qed.

(** ** The extra properties at concrete inputs *)
Lemma unknown_volume_fails_before_any_request_witness :
  rejected_unknown (Mock.ready ∅ []) "vol1"
    (delete_volume Mock.cfg Mock.vol1 (Mock.ready ∅ [])) ∧
  requests (extend_volume Mock.cfg Mock.vol1 20 (Mock.ready ∅ [])).1 = [].
Proof.
  assert (Hnone : (∅ : gmap string Z) !! "vol1" = None) by reflexivity.
  destruct (unknown_volume_fails_before_any_request Mock.cfg
              (Mock.ready ∅ []) ∅ Mock.vol1 Mock.snap1 20
              eq_refl Hnone Hnone) as (Hdel & [_ Hext] & _).
  split; [exact Hdel|]. by rewrite Hext.
Defined.

Lemma create_volume_from_snapshot_order_witness :
  let w := Mock.ready {["vol1" := 1]} [] in
  let out := create_volume_from_snapshot Mock.cfg Mock.copy Mock.snap1 w in
  out.2 = inr tt ∧
  requests out.1
    = [restore_call Mock.cfg 1 "snap1" 2; create_lun_call Mock.cfg 2 10;
       persist_call Mock.cfg (<["copy" := 2]> {["vol1" := 1]})] ∧
  name_map (self out.1) = Some (<["copy" := 2]> {["vol1" := 1]}).
Proof.
  assert (Hscan : scan_lun_numbers ({["vol1" := 1]} : gmap string Z) = Some 2)
    by (vm_compute; reflexivity).
  exact (proj2 (create_volume_from_snapshot_order Mock.cfg
                  (Mock.ready {["vol1" := 1]} []) Mock.the_proxy
                  {["vol1" := 1]} Mock.copy Mock.snap1 1
                  eq_refl eq_refl eq_refl)
           2 Hscan [] (inr JNull) eq_refl [] (inr JNull) eq_refl
           [] (inr JNull) eq_refl).
Defined.

Lemma created_volume_is_addressable_witness :
  let out := create_volume Mock.cfg Mock.vol1 (Mock.ready ∅ []) in
  out.2 = inr (provider_location Mock.cfg "iqn.test" 1) ∧
  (create_export Mock.cfg Mock.vol1 out.1).2 = out.2 ∧
  (local_path Mock.cfg Mock.vol1 out.1).2 = inr "clu/ten/bk/1".
Proof.
  assert (Hscan : scan_lun_numbers (∅ : gmap string Z) = Some 1)
    by (vm_compute; reflexivity).
  unshelve epose proof
    (created_volume_is_addressable Mock.cfg (Mock.ready ∅ [])
       Mock.the_proxy "iqn.test" ∅ Mock.vol1 1 [] JNull [] JNull
       _ _ _ Hscan _ _) as (Hret & _ & _ & Hexp & Hpath & _);
    try reflexivity.
  split; [exact Hret|]. split; [exact Hexp|]. exact Hpath.
Defined.

Lemma deleted_volume_is_forgotten_witness :
  let w := Mock.ready {["vol1" := 1]} [] in
  let w' := (delete_volume Mock.cfg Mock.vol1 w).1 in
  (_get_lun_from_name "vol1" w').2 = inl (UnknownVolume "vol1") ∧
  rejected_unknown w' "vol1" (delete_volume Mock.cfg Mock.vol1 w').
Proof.
  destruct (deleted_volume_is_forgotten Mock.cfg
              (Mock.ready {["vol1" := 1]} []) Mock.vol1
              (delete_volume Mock.cfg Mock.vol1
                 (Mock.ready {["vol1" := 1]} [])).1 tt)
    as (Hget & Hagain & _).
  - vm_compute. reflexivity.
  - split; [exact Hget|exact Hagain].
Defined.

Lemma lun_invariant_singleton name n :
  1 ≤ n ≤ 255 → lun_invariant {[name := n]}.
Proof.
  intros Hn. split; [apply lun_unique_singleton|].
  intros k v Hk. by apply lookup_singleton_Some in Hk as [_ <-].
Qed.

Lemma delete_volume_releases_number_witness :
  let w := Mock.ready {["vol1" := 1]} [] in
  let w' := (delete_volume Mock.cfg Mock.vol1 w).1 in
  _allocate_lun_number w'
  = (w', inr (match scan_lun_numbers ({["vol1" := 1]} : gmap string Z) with
              | Some n0 => Z.min 1 n0
              | None => 1
              end)).
Proof.
  apply (delete_volume_releases_number Mock.cfg
           (Mock.ready {["vol1" := 1]} []) {["vol1" := 1]} Mock.vol1 1
           (delete_volume Mock.cfg Mock.vol1
              (Mock.ready {["vol1" := 1]} [])).1 tt).
  - reflexivity.
  - apply lun_invariant_singleton. lia.
  - reflexivity.
  - vm_compute. reflexivity.
Defined.

Lemma delete_volume_persist_failure_witness :
  let w := Mock.ready {["vol1" := 1]} [Mock.ok; Mock.down] in
  let out := delete_volume Mock.cfg Mock.vol1 w in
  out.2 = inl (NexentaException "connection refused") ∧
  name_map (self out.1) = Some (delete "vol1" {["vol1" := 1]}) ∧
  (_get_lun_from_name "vol1" out.1).2 = inl (UnknownVolume "vol1").
Proof.
  apply (delete_volume_persist_failure Mock.cfg
           (Mock.ready {["vol1" := 1]} [Mock.ok; Mock.down]) Mock.the_proxy
           {["vol1" := 1]} Mock.vol1 1 [Mock.down] JNull []
           (NexentaException "connection refused")).
  - reflexivity.
  - reflexivity.
  - reflexivity.
  - reflexivity.
  - reflexivity.
Defined.

Lemma allocation_fails_iff_map_is_full_witness :
  (size (∅ : gmap string Z) ≤ 255)%nat ∧
  ((_allocate_lun_number (Mock.ready ∅ [])).2 = inl LunSpaceExhausted
   ↔ size (∅ : gmap string Z) = 255%nat).
Proof.
  apply (allocation_fails_iff_map_is_full (Mock.ready ∅ []) ∅).
  - reflexivity.
  - apply lun_invariant_empty.
Defined.

Lemma exhausted_accepting : accepting Mock.exhausted.
Proof.
  intros b c ->. exists [], JNull. split; reflexivity.
Qed.

Lemma create_all_numbers_in_order_witness :
  ∃ m', name_map (self (create_all Mock.cfg [Mock.vol1; Mock.vol2]
                          (Mock.ready ∅ []))) = Some m' ∧
        size m' = 2%nat ∧
        ∀ (i : nat) v, [Mock.vol1; Mock.vol2] !! i = Some v →
          m' !! vol_name v = Some (Z.of_nat i + 1).
Proof.
  apply (create_all_numbers_in_order Mock.cfg Mock.exhausted
           [Mock.vol1; Mock.vol2] (Mock.ready ∅ []) Mock.the_proxy "iqn.test").
  - apply exhausted_accepting.
  - reflexivity.
  - reflexivity.
  - reflexivity.
  - reflexivity.
  - simpl. lia.
  - apply NoDup_cons. split; [|apply NoDup_singleton].
    intros Hin. apply list_elem_of_singleton in Hin. discriminate Hin.
Defined.

Lemma distinct_volumes_have_distinct_objects_witness :
  let w := Mock.ready (<["vol2" := 2]> {["vol1" := 1]}) [] in
  (local_path Mock.cfg Mock.vol1 w).2 ≠ (local_path Mock.cfg Mock.vol2 w).2 ∧
  delete_lun_call Mock.cfg 1 ≠ delete_lun_call Mock.cfg 2.
Proof.
  apply (distinct_volumes_have_distinct_objects Mock.cfg
           (Mock.ready (<["vol2" := 2]> {["vol1" := 1]}) [])
           (<["vol2" := 2]> {["vol1" := 1]}) Mock.vol1 Mock.vol2 1 2).
  - reflexivity.
  - apply lun_unique_insert; [apply lun_unique_singleton|].
    intros [k Hk]. by apply lookup_singleton_Some in Hk as [_ ?].
  - reflexivity.
  - reflexivity.
  - discriminate.
Defined.

Lemma status_names_mock :
  status_names ("Target 1: iqn.test" +:+ String newline "LUN: 0") "iqn.test".
Proof.
  exists "Target", "1:", (String newline "LUN: 0").
  split; [reflexivity|]. repeat split; try reflexivity.
  right. exists "LUN: 0". by right.
Qed.

Lemma do_setup_reads_target_and_name_map_witness :
  (let out :=
     do_setup Mock.cfg (Mock.fresh [inr Mock.status; inr Mock.new_bucket]) in
   target_name (self out.1) = Some "iqn.test" ∧
   requests out.1 = [status_call; bucket_call Mock.cfg] ∧
   out.2 = inr None ∧ name_map (self out.1) = Some ∅) ∧
  (let out := do_setup Mock.cfg (Mock.fresh [inr Mock.status; inr JNull]) in
   (∃ msg, out.2 = inl (PyException "TypeError" msg)) ∧
   name_map (self out.1) = None).
Proof.
  split.
  - unshelve epose proof
      (do_setup_reads_target_and_name_map Mock.cfg
         (Mock.fresh [inr Mock.status; inr Mock.new_bucket])
         [inr Mock.new_bucket] Mock.status
         ("Target 1: iqn.test" +:+ String newline "LUN: 0") "iqn.test"
         [] Mock.new_bucket _ _ status_names_mock _)
      as (Ht & _ & Hreq & _ & Hnomap & _);
      try reflexivity.
    split; [exact Ht|]. split; [exact Hreq|].
    apply (Hnomap [("bucketMetadata", JObj [])] []); reflexivity.
  - unshelve epose proof
      (do_setup_reads_target_and_name_map Mock.cfg
         (Mock.fresh [inr Mock.status; inr JNull])
         [inr JNull] Mock.status
         ("Target 1: iqn.test" +:+ String newline "LUN: 0") "iqn.test"
         [] JNull _ _ status_names_mock _)
      as (_ & _ & _ & _ & _ & _ & Htype);
      try reflexivity.
    apply Htype. by left.
Defined.

Lemma do_setup_bucket_failure_leaves_half_setup_witness :
  let out := do_setup Mock.cfg (Mock.fresh [inr Mock.status; Mock.down]) in
  out.2 = inl (NexentaException "connection refused") ∧
  target_name (self out.1) = Some "iqn.test" ∧
  name_map (self out.1) = None.
Proof.
  apply (do_setup_bucket_failure_leaves_half_setup Mock.cfg
           (Mock.fresh [inr Mock.status; Mock.down]) [Mock.down] Mock.status
           ("Target 1: iqn.test" +:+ String newline "LUN: 0") "iqn.test"
           [] (NexentaException "connection refused")).
  - reflexivity.
  - reflexivity.
  - apply status_names_mock.
  - reflexivity.
Defined.

Lemma do_setup_short_status_line_witness :
  let out := do_setup Mock.cfg (Mock.fresh [inr Mock.short_status]) in
  out.2 = inl (PyException "IndexError" "list index out of range") ∧
  target_name (self out.1) = None ∧
  name_map (self out.1) = None ∧
  requests out.1 = [status_call].
Proof.
  apply (do_setup_short_status_line Mock.cfg
           (Mock.fresh [inr Mock.short_status]) [] Mock.short_status "Target").
  - reflexivity.
  - reflexivity.
  - unfold first_line. simpl. lia.
Defined.

Lemma do_setup_none_means_ready_witness :
  let out :=
    do_setup Mock.cfg (Mock.fresh [inr Mock.status; inr Mock.new_bucket]) in
  is_Some (restapi (self out.1)) ∧
  is_Some (target_name (self out.1)) ∧
  is_Some (name_map (self out.1)).
Proof.
  apply (do_setup_none_means_ready Mock.cfg
           (Mock.fresh [inr Mock.status; inr Mock.new_bucket])).
  vm_compute. reflexivity.
Defined.

Lemma init_splits_volume_path_witness :
  (∃ cfg, __init__ (Some Mock.conf) = inr cfg ∧
          bucket_path cfg = "clu/ten/bk" ∧
          cluster cfg +:+ "/" +:+ tenant cfg +:+ "/" +:+ bucket cfg
            = bucket_path cfg ∧
          count_char slash (cluster cfg) = 0%nat ∧
          count_char slash (tenant cfg) = 0%nat ∧
          count_char slash (bucket cfg) = 0%nat) ∧
  __init__ (Some (Configuration "auto" "10.0.0.1" 8080 "admin" "nexenta"
                    "clu/bk" 3260))
  = inl (unpack_error 2).
Proof.
  split.
  - apply (proj1 (init_splits_volume_path Mock.conf)). reflexivity.
  - apply (proj2 (init_splits_volume_path
                    (Configuration "auto" "10.0.0.1" 8080 "admin" "nexenta"
                       "clu/bk" 3260))).
    simpl. lia.
Defined.
